(** * GNSS positioning data model ([include/genivi/gnss.h])

    The header declares five enumerations, three validity-bit enumerations
    and three plain records.  It contains no executable code: what can be
    verified is the table of constants (values, bit positions, grouping),
    the correspondence between validity bits and record fields, and the
    value ranges the field comments document.

    Conventions of the embedding:
    - a C enumeration is an inductive type with one constructor per
      enumerator, named as in the header, and a [value] function giving the
      enumerator's integer as written in the header;
    - a fixed-width integer field is a [Z] together with the range of its
      C type ([uint8_t] is [0 <= z < 2^8], [int16_t] is
      [-2^15 <= z < 2^15], ...);
    - a [float] field is an IEEE-754 binary32 value and a [double] field
      a binary64 value, both as [spec_float] of the standard library;
    - a bit mask is a [Z]; [|] is [Z.lor] and [&] is [Z.land]. *)

From Stdlib Require Import ZArith List Bool Lia.
From Stdlib Require Import Lists.Finite.
From Stdlib Require Import Floats.SpecFloat.
Import ListNotations.

Local Open Scope Z_scope.

(** ** Enumerations as tables of integer constants *)

(** An enumeration of the header: the integer each enumerator stands for and
    the enumerators in declaration order. *)
Class CEnum (E : Type) : Type := {
  value : E -> Z;
  members : list E
}.

Arguments value {E _} _.
Arguments members E {_}.

(** [a | b | ...] over a list of enumerators. *)
Definition mask {E : Type} `{CEnum E} (l : list E) : Z :=
  fold_right (fun e acc => Z.lor (value e) acc) 0 l.

(** [(bits & flag) != 0], the test the header asks consumers to make. *)
Definition has_flag {E : Type} `{CEnum E} (bits : Z) (e : E) : bool :=
  negb (Z.land bits (value e) =? 0).

(** The enumerators that test as set in [bits], in declaration order: what
    a consumer reads out of a mask field. *)
Definition decode {E : Type} `{CEnum E} (bits : Z) : list E :=
  filter (has_flag bits) (members E).

(** Number of bits set in a positive number. *)
Fixpoint Pos_popcount (p : positive) : nat :=
  match p with
  | xH => 1
  | xO q => Pos_popcount q
  | xI q => S (Pos_popcount q)
  end.

(** Number of bits set in a non-negative integer (0 for a negative one,
    which no enumerator of the header is). *)
Definition popcount (z : Z) : nat :=
  match z with
  | Zpos p => Pos_popcount p
  | _ => 0%nat
  end.

(** No integer occurs twice in the list. *)
Fixpoint distinctb (l : list Z) : bool :=
  match l with
  | [] => true
  | x :: r => negb (existsb (Z.eqb x) r) && distinctb r
  end.

(** Position of the highest bit set; for a single-bit value, its bit. *)
Definition bit_position {E : Type} `{CEnum E} (e : E) : Z := Z.log2 (value e).

(** *** [EGNSSFixStatus] (gnss.h, lines 38-45): no explicit values, so the
    enumerators count from 0. *)
Inductive EGNSSFixStatus : Type :=
| GNSS_FIX_STATUS_NO
| GNSS_FIX_STATUS_TIME
| GNSS_FIX_STATUS_2D
| GNSS_FIX_STATUS_3D.

#[export] Instance EGNSSFixStatus_enum : CEnum EGNSSFixStatus := {|
  value e :=
    match e with
    | GNSS_FIX_STATUS_NO => 0
    | GNSS_FIX_STATUS_TIME => 1
    | GNSS_FIX_STATUS_2D => 2
    | GNSS_FIX_STATUS_3D => 3
    end;
  members :=
    [GNSS_FIX_STATUS_NO; GNSS_FIX_STATUS_TIME; GNSS_FIX_STATUS_2D;
     GNSS_FIX_STATUS_3D]
|}.

(** *** [EGNSSFixType] (gnss.h, lines 56-89) *)
Inductive EGNSSFixType : Type :=
| GNSS_FIX_TYPE_SINGLE_FREQUENCY
| GNSS_FIX_TYPE_MULTI_FREQUENCY
| GNSS_FIX_TYPE_MULTI_CONSTELLATION
| GNSS_FIX_TYPE_PPP
| GNSS_FIX_TYPE_INTEGRITY_CHECKED
| GNSS_FIX_TYPE_SBAS
| GNSS_FIX_TYPE_DGNSS
| GNSS_FIX_TYPE_RTK_FIXED
| GNSS_FIX_TYPE_RTK_FLOAT
| GNSS_FIX_TYPE_SSR
| GNSS_FIX_TYPE_ESTIMATED
| GNSS_FIX_TYPE_DEAD_RECKONING
| GNSS_FIX_TYPE_MANUAL
| GNSS_FIX_TYPE_SIMULATOR_MODE.

#[export] Instance EGNSSFixType_enum : CEnum EGNSSFixType := {|
  value e :=
    match e with
    | GNSS_FIX_TYPE_SINGLE_FREQUENCY => 0x00000001
    | GNSS_FIX_TYPE_MULTI_FREQUENCY => 0x00000002
    | GNSS_FIX_TYPE_MULTI_CONSTELLATION => 0x00000004
    | GNSS_FIX_TYPE_PPP => 0x00000010
    | GNSS_FIX_TYPE_INTEGRITY_CHECKED => 0x00000020
    | GNSS_FIX_TYPE_SBAS => 0x00001000
    | GNSS_FIX_TYPE_DGNSS => 0x00002000
    | GNSS_FIX_TYPE_RTK_FIXED => 0x00004000
    | GNSS_FIX_TYPE_RTK_FLOAT => 0x00008000
    | GNSS_FIX_TYPE_SSR => 0x00010000
    | GNSS_FIX_TYPE_ESTIMATED => 0x00100000
    | GNSS_FIX_TYPE_DEAD_RECKONING => 0x00200000
    | GNSS_FIX_TYPE_MANUAL => 0x10000000
    | GNSS_FIX_TYPE_SIMULATOR_MODE => 0x20000000
    end;
  members :=
    [GNSS_FIX_TYPE_SINGLE_FREQUENCY; GNSS_FIX_TYPE_MULTI_FREQUENCY;
     GNSS_FIX_TYPE_MULTI_CONSTELLATION; GNSS_FIX_TYPE_PPP;
     GNSS_FIX_TYPE_INTEGRITY_CHECKED; GNSS_FIX_TYPE_SBAS;
     GNSS_FIX_TYPE_DGNSS; GNSS_FIX_TYPE_RTK_FIXED; GNSS_FIX_TYPE_RTK_FLOAT;
     GNSS_FIX_TYPE_SSR; GNSS_FIX_TYPE_ESTIMATED;
     GNSS_FIX_TYPE_DEAD_RECKONING; GNSS_FIX_TYPE_MANUAL;
     GNSS_FIX_TYPE_SIMULATOR_MODE]
|}.

(** The five groups of [EGNSSFixType], one per [//Information ...] comment
    line of the enumeration. *)
Inductive FixTypeGroup : Type :=
| UsedSatelliteData      (* //Information about the used satellite data *)
| ImprovementTechniques  (* //Information of improvement techniques based on the satellite signals *)
| UsedCorrectionData     (* //Information about used correction data *)
| PositionPropagation    (* //Information about position propagation *)
| ArtificialFix.         (* //Information to identify artificial GNSS fixes *)

(** The group an enumerator is declared under. *)
Definition fix_type_group (e : EGNSSFixType) : FixTypeGroup :=
  match e with
  | GNSS_FIX_TYPE_SINGLE_FREQUENCY
  | GNSS_FIX_TYPE_MULTI_FREQUENCY
  | GNSS_FIX_TYPE_MULTI_CONSTELLATION => UsedSatelliteData
  | GNSS_FIX_TYPE_PPP
  | GNSS_FIX_TYPE_INTEGRITY_CHECKED => ImprovementTechniques
  | GNSS_FIX_TYPE_SBAS
  | GNSS_FIX_TYPE_DGNSS
  | GNSS_FIX_TYPE_RTK_FIXED
  | GNSS_FIX_TYPE_RTK_FLOAT
  | GNSS_FIX_TYPE_SSR => UsedCorrectionData
  | GNSS_FIX_TYPE_ESTIMATED
  | GNSS_FIX_TYPE_DEAD_RECKONING => PositionPropagation
  | GNSS_FIX_TYPE_MANUAL
  | GNSS_FIX_TYPE_SIMULATOR_MODE => ArtificialFix
  end.

Definition FixTypeGroup_eqb (a b : FixTypeGroup) : bool :=
  match a, b with
  | UsedSatelliteData, UsedSatelliteData
  | ImprovementTechniques, ImprovementTechniques
  | UsedCorrectionData, UsedCorrectionData
  | PositionPropagation, PositionPropagation
  | ArtificialFix, ArtificialFix => true
  | _, _ => false
  end.

(** The enumerators declared under a group, in declaration order. *)
Definition group_members (g : FixTypeGroup) : list EGNSSFixType :=
  filter (fun e => FixTypeGroup_eqb (fix_type_group e) g)
         (members EGNSSFixType).

(** *** [EGNSSTimeScale] (gnss.h, lines 95-98) *)
Inductive EGNSSTimeScale : Type :=
| GNSS_TIME_SCALE_UTC
| GNSS_TIME_SCALE_GPS.

#[export] Instance EGNSSTimeScale_enum : CEnum EGNSSTimeScale := {|
  value e :=
    match e with
    | GNSS_TIME_SCALE_UTC => 0
    | GNSS_TIME_SCALE_GPS => 1
    end;
  members := [GNSS_TIME_SCALE_UTC; GNSS_TIME_SCALE_GPS]
|}.

(** *** [EGNSSTimeValidityBits] (gnss.h, lines 106-111) *)
Inductive EGNSSTimeValidityBits : Type :=
| GNSS_TIME_TIME_VALID
| GNSS_TIME_DATE_VALID
| GNSS_TIME_SCALE_VALID
| GNSS_TIME_LEAPSEC_VALID.

#[export] Instance EGNSSTimeValidityBits_enum : CEnum EGNSSTimeValidityBits := {|
  value e :=
    match e with
    | GNSS_TIME_TIME_VALID => 0x00000001
    | GNSS_TIME_DATE_VALID => 0x00000002
    | GNSS_TIME_SCALE_VALID => 0x00000004
    | GNSS_TIME_LEAPSEC_VALID => 0x00000008
    end;
  members :=
    [GNSS_TIME_TIME_VALID; GNSS_TIME_DATE_VALID; GNSS_TIME_SCALE_VALID;
     GNSS_TIME_LEAPSEC_VALID]
|}.

(** *** [EGNSSSystem] (gnss.h, lines 143-159) *)
Inductive EGNSSSystem : Type :=
| GNSS_SYSTEM_GPS
| GNSS_SYSTEM_GLONASS
| GNSS_SYSTEM_GALILEO
| GNSS_SYSTEM_BEIDOU
| GNSS_SYSTEM_GPS_L2
| GNSS_SYSTEM_GPS_L5
| GNSS_SYSTEM_GLONASS_L2
| GNSS_SYSTEM_BEIDOU_B2
| GNSS_SYSTEM_SBAS_WAAS
| GNSS_SYSTEM_SBAS_EGNOS
| GNSS_SYSTEM_SBAS_MSAS
| GNSS_SYSTEM_SBAS_QZSS_SAIF
| GNSS_SYSTEM_SBAS_SDCM
| GNSS_SYSTEM_SBAS_GAGAN.

#[export] Instance EGNSSSystem_enum : CEnum EGNSSSystem := {|
  value e :=
    match e with
    | GNSS_SYSTEM_GPS => 0x00000001
    | GNSS_SYSTEM_GLONASS => 0x00000002
    | GNSS_SYSTEM_GALILEO => 0x00000004
    | GNSS_SYSTEM_BEIDOU => 0x00000008
    | GNSS_SYSTEM_GPS_L2 => 0x00000010
    | GNSS_SYSTEM_GPS_L5 => 0x00000020
    | GNSS_SYSTEM_GLONASS_L2 => 0x00000040
    | GNSS_SYSTEM_BEIDOU_B2 => 0x00000080
    | GNSS_SYSTEM_SBAS_WAAS => 0x00010000
    | GNSS_SYSTEM_SBAS_EGNOS => 0x00020000
    | GNSS_SYSTEM_SBAS_MSAS => 0x00040000
    | GNSS_SYSTEM_SBAS_QZSS_SAIF => 0x00080000
    | GNSS_SYSTEM_SBAS_SDCM => 0x00100000
    | GNSS_SYSTEM_SBAS_GAGAN => 0x00200000
    end;
  members :=
    [GNSS_SYSTEM_GPS; GNSS_SYSTEM_GLONASS; GNSS_SYSTEM_GALILEO;
     GNSS_SYSTEM_BEIDOU; GNSS_SYSTEM_GPS_L2; GNSS_SYSTEM_GPS_L5;
     GNSS_SYSTEM_GLONASS_L2; GNSS_SYSTEM_BEIDOU_B2; GNSS_SYSTEM_SBAS_WAAS;
     GNSS_SYSTEM_SBAS_EGNOS; GNSS_SYSTEM_SBAS_MSAS;
     GNSS_SYSTEM_SBAS_QZSS_SAIF; GNSS_SYSTEM_SBAS_SDCM;
     GNSS_SYSTEM_SBAS_GAGAN]
|}.

(** The enumerators the header declares as SBAS systems: the ones named
    [GNSS_SYSTEM_SBAS_*], below the comment "Numbers >= 0x00010000 are used
    to identify SBAS (satellite based augmentation system)". *)
Definition is_SBAS (e : EGNSSSystem) : bool :=
  match e with
  | GNSS_SYSTEM_SBAS_WAAS
  | GNSS_SYSTEM_SBAS_EGNOS
  | GNSS_SYSTEM_SBAS_MSAS
  | GNSS_SYSTEM_SBAS_QZSS_SAIF
  | GNSS_SYSTEM_SBAS_SDCM
  | GNSS_SYSTEM_SBAS_GAGAN => true
  | _ => false
  end.

(** The region each SBAS enumerator's comment names: "WAAS (North
    America)", "EGNOS (Europe)", "MSAS (Japan)", "QZSS-SAIF (Japan)",
    "SDCM (Russia)", "GAGAN (India)". *)
Inductive SBASRegion : Type :=
| NorthAmerica | Europe | Japan | Russia | India.

Definition sbas_region (e : EGNSSSystem) : option SBASRegion :=
  match e with
  | GNSS_SYSTEM_SBAS_WAAS => Some NorthAmerica
  | GNSS_SYSTEM_SBAS_EGNOS => Some Europe
  | GNSS_SYSTEM_SBAS_MSAS => Some Japan
  | GNSS_SYSTEM_SBAS_QZSS_SAIF => Some Japan
  | GNSS_SYSTEM_SBAS_SDCM => Some Russia
  | GNSS_SYSTEM_SBAS_GAGAN => Some India
  | _ => None
  end.

(** The threshold of that comment. *)
Definition SBAS_THRESHOLD : Z := 0x00010000.

(** *** [EGNSSSatelliteFlag] (gnss.h, lines 166-169) *)
Inductive EGNSSSatelliteFlag : Type :=
| GNSS_SATELLITE_USED
| GNSS_SATELLITE_EPHEMERIS_AVAILABLE.

#[export] Instance EGNSSSatelliteFlag_enum : CEnum EGNSSSatelliteFlag := {|
  value e :=
    match e with
    | GNSS_SATELLITE_USED => 0x00000001
    | GNSS_SATELLITE_EPHEMERIS_AVAILABLE => 0x00000002
    end;
  members := [GNSS_SATELLITE_USED; GNSS_SATELLITE_EPHEMERIS_AVAILABLE]
|}.

(** *** [EGNSSSatelliteDetailValidityBits] (gnss.h, lines 176-185) *)
Inductive EGNSSSatelliteDetailValidityBits : Type :=
| GNSS_SATELLITE_SYSTEM_VALID
| GNSS_SATELLITE_ID_VALID
| GNSS_SATELLITE_AZIMUTH_VALID
| GNSS_SATELLITE_ELEVATION_VALID
| GNSS_SATELLITE_CNO_VALID
| GNSS_SATELLITE_USED_VALID
| GNSS_SATELLITE_EPHEMERIS_AVAILABLE_VALID
| GNSS_SATELLITE_RESIDUAL_VALID.

#[export] Instance EGNSSSatelliteDetailValidityBits_enum :
  CEnum EGNSSSatelliteDetailValidityBits := {|
  value e :=
    match e with
    | GNSS_SATELLITE_SYSTEM_VALID => 0x00000001
    | GNSS_SATELLITE_ID_VALID => 0x00000002
    | GNSS_SATELLITE_AZIMUTH_VALID => 0x00000004
    | GNSS_SATELLITE_ELEVATION_VALID => 0x00000008
    | GNSS_SATELLITE_CNO_VALID => 0x00000010
    | GNSS_SATELLITE_USED_VALID => 0x00000020
    | GNSS_SATELLITE_EPHEMERIS_AVAILABLE_VALID => 0x00000040
    | GNSS_SATELLITE_RESIDUAL_VALID => 0x00000080
    end;
  members :=
    [GNSS_SATELLITE_SYSTEM_VALID; GNSS_SATELLITE_ID_VALID;
     GNSS_SATELLITE_AZIMUTH_VALID; GNSS_SATELLITE_ELEVATION_VALID;
     GNSS_SATELLITE_CNO_VALID; GNSS_SATELLITE_USED_VALID;
     GNSS_SATELLITE_EPHEMERIS_AVAILABLE_VALID; GNSS_SATELLITE_RESIDUAL_VALID]
|}.

(** *** [EGNSSPositionValidityBits] (gnss.h, lines 220-252) *)
Inductive EGNSSPositionValidityBits : Type :=
| GNSS_POSITION_LATITUDE_VALID
| GNSS_POSITION_LONGITUDE_VALID
| GNSS_POSITION_ALTITUDEMSL_VALID
| GNSS_POSITION_ALTITUDEELL_VALID
| GNSS_POSITION_HSPEED_VALID
| GNSS_POSITION_VSPEED_VALID
| GNSS_POSITION_HEADING_VALID
| GNSS_POSITION_PDOP_VALID
| GNSS_POSITION_HDOP_VALID
| GNSS_POSITION_VDOP_VALID
| GNSS_POSITION_USAT_VALID
| GNSS_POSITION_TSAT_VALID
| GNSS_POSITION_VSAT_VALID
| GNSS_POSITION_SHPOS_VALID
| GNSS_POSITION_SALT_VALID
| GNSS_POSITION_SHSPEED_VALID
| GNSS_POSITION_SVSPEED_VALID
| GNSS_POSITION_SHEADING_VALID
| GNSS_POSITION_STAT_VALID
| GNSS_POSITION_TYPE_VALID
| GNSS_POSITION_ASYS_VALID
| GNSS_POSITION_USYS_VALID
| GNSS_POSITION_CORRAGE_VALID.

#[export] Instance EGNSSPositionValidityBits_enum :
  CEnum EGNSSPositionValidityBits := {|
  value e :=
    match e with
    | GNSS_POSITION_LATITUDE_VALID => 0x00000001
    | GNSS_POSITION_LONGITUDE_VALID => 0x00000002
    | GNSS_POSITION_ALTITUDEMSL_VALID => 0x00000004
    | GNSS_POSITION_ALTITUDEELL_VALID => 0x00000008
    | GNSS_POSITION_HSPEED_VALID => 0x00000010
    | GNSS_POSITION_VSPEED_VALID => 0x00000020
    | GNSS_POSITION_HEADING_VALID => 0x00000040
    | GNSS_POSITION_PDOP_VALID => 0x00000080
    | GNSS_POSITION_HDOP_VALID => 0x00000100
    | GNSS_POSITION_VDOP_VALID => 0x00000200
    | GNSS_POSITION_USAT_VALID => 0x00000400
    | GNSS_POSITION_TSAT_VALID => 0x00000800
    | GNSS_POSITION_VSAT_VALID => 0x00001000
    | GNSS_POSITION_SHPOS_VALID => 0x00002000
    | GNSS_POSITION_SALT_VALID => 0x00004000
    | GNSS_POSITION_SHSPEED_VALID => 0x00008000
    | GNSS_POSITION_SVSPEED_VALID => 0x00010000
    | GNSS_POSITION_SHEADING_VALID => 0x00020000
    | GNSS_POSITION_STAT_VALID => 0x00040000
    | GNSS_POSITION_TYPE_VALID => 0x00080000
    | GNSS_POSITION_ASYS_VALID => 0x00100000
    | GNSS_POSITION_USYS_VALID => 0x00200000
    | GNSS_POSITION_CORRAGE_VALID => 0x00400000
    end;
  members :=
    [GNSS_POSITION_LATITUDE_VALID; GNSS_POSITION_LONGITUDE_VALID;
     GNSS_POSITION_ALTITUDEMSL_VALID; GNSS_POSITION_ALTITUDEELL_VALID;
     GNSS_POSITION_HSPEED_VALID; GNSS_POSITION_VSPEED_VALID;
     GNSS_POSITION_HEADING_VALID; GNSS_POSITION_PDOP_VALID;
     GNSS_POSITION_HDOP_VALID; GNSS_POSITION_VDOP_VALID;
     GNSS_POSITION_USAT_VALID; GNSS_POSITION_TSAT_VALID;
     GNSS_POSITION_VSAT_VALID; GNSS_POSITION_SHPOS_VALID;
     GNSS_POSITION_SALT_VALID; GNSS_POSITION_SHSPEED_VALID;
     GNSS_POSITION_SVSPEED_VALID; GNSS_POSITION_SHEADING_VALID;
     GNSS_POSITION_STAT_VALID; GNSS_POSITION_TYPE_VALID;
     GNSS_POSITION_ASYS_VALID; GNSS_POSITION_USYS_VALID;
     GNSS_POSITION_CORRAGE_VALID]
|}.

(** ** C scalar types of [<stdint.h>] and floating point *)

Definition is_uint8_t (z : Z) : bool := (0 <=? z) && (z <? 2 ^ 8).
Definition is_uint16_t (z : Z) : bool := (0 <=? z) && (z <? 2 ^ 16).
Definition is_uint32_t (z : Z) : bool := (0 <=? z) && (z <? 2 ^ 32).
Definition is_uint64_t (z : Z) : bool := (0 <=? z) && (z <? 2 ^ 64).
Definition is_int8_t (z : Z) : bool := (- 2 ^ 7 <=? z) && (z <? 2 ^ 7).
Definition is_int16_t (z : Z) : bool := (- 2 ^ 15 <=? z) && (z <? 2 ^ 15).

(** [float]: IEEE-754 binary32, 24 bits of precision, exponent bound 128. *)
Definition is_float (x : spec_float) : bool := valid_binary 24 128 x.

(** [double]: IEEE-754 binary64. *)
Definition is_double (x : spec_float) : bool := valid_binary 53 1024 x.

(** The [float] an integer literal converts to (round to nearest even). *)
Definition float_of_Z (z : Z) : spec_float := binary_normalize 24 128 z 0 false.

(** The [double] an integer literal converts to. *)
Definition double_of_Z (z : Z) : spec_float := binary_normalize 53 1024 z 0 false.

Definition float_mul : spec_float -> spec_float -> spec_float := SFmul 24 128.
Definition float_add : spec_float -> spec_float -> spec_float := SFadd 24 128.

(** [x * x] in [float] arithmetic. *)
Definition float_sq (x : spec_float) : spec_float := float_mul x x.

(** The integer [n] with [x = n / 2^k] for a finite [x] whose exponent is at
    least [-k]: the exact value of [x] on a common scale, so that sums and
    products of such values can be compared without any rounding. *)
Definition scaled (k : Z) (x : spec_float) : option Z :=
  match x with
  | S754_zero _ => Some 0
  | S754_finite s m e =>
      if 0 <=? e + k
      then Some ((if s then -1 else 1) * Zpos m * 2 ^ (e + k))
      else None
  | _ => None
  end.

(** ** [TGNSSTime] (gnss.h, lines 117-134) *)
Module Time.

Record TGNSSTime : Type := {
  timestamp : Z;            (* uint64_t *)
  year : Z;                 (* uint16_t *)
  month : Z;                (* uint8_t *)
  day : Z;                  (* uint8_t *)
  hour : Z;                 (* uint8_t *)
  minute : Z;               (* uint8_t *)
  second : Z;               (* uint8_t *)
  ms : Z;                   (* uint16_t *)
  scale : EGNSSTimeScale;
  leapSeconds : Z;          (* int8_t *)
  validityBits : Z          (* uint32_t *)
}.

(** The fields of the record, in declaration order. *)
Inductive Field : Type :=
| f_timestamp | f_year | f_month | f_day | f_hour | f_minute | f_second
| f_ms | f_scale | f_leapSeconds | f_validityBits.

(** The fields a validity bit stands for, as its comment lists them. *)
Definition gated (b : EGNSSTimeValidityBits) : list Field :=
  match b with
  | GNSS_TIME_TIME_VALID => [f_hour; f_minute; f_second; f_ms]
  | GNSS_TIME_DATE_VALID => [f_year; f_month; f_day]
  | GNSS_TIME_SCALE_VALID => [f_scale]
  | GNSS_TIME_LEAPSEC_VALID => [f_leapSeconds]
  end.

(** Every field holds a value of its C type. *)
Definition in_type (t : TGNSSTime) : bool :=
  is_uint64_t (timestamp t) && is_uint16_t (year t)
  && is_uint8_t (month t) && is_uint8_t (day t) && is_uint8_t (hour t)
  && is_uint8_t (minute t) && is_uint8_t (second t) && is_uint16_t (ms t)
  && is_int8_t (leapSeconds t) && is_uint32_t (validityBits t).

(** The value ranges of the field comments.  [leap_second] tells whether
    the sample was taken during a leap second, which the record itself
    does not store:
    - month: "Number betweeen 0 and 11";
    - day: "Number between 1 and 31";
    - hour: "Number between 0 and 23";
    - minute: "Number between 0 and 59";
    - second: "Number between 0 and 59.  In case of a leap second this
      value is 60.";
    - ms: "Number between 0 and 999". *)
Definition documented (leap_second : bool) (t : TGNSSTime) : bool :=
  (0 <=? month t) && (month t <=? 11)
  && (1 <=? day t) && (day t <=? 31)
  && (0 <=? hour t) && (hour t <=? 23)
  && (0 <=? minute t) && (minute t <=? 59)
  && (if leap_second
      then second t =? 60
      else (0 <=? second t) && (second t <=? 59))
  && (0 <=? ms t) && (ms t <=? 999).

(** 31 December 2016, 23:59:60.500 UTC: a sample inside a leap second. *)
Definition leap_sample : TGNSSTime := {|
  timestamp := 86399500; year := 2016; month := 11; day := 31;
  hour := 23; minute := 59; second := 60; ms := 500;
  scale := GNSS_TIME_SCALE_UTC; leapSeconds := 17;
  validityBits := 0x0000000F
|}.

(** The validity bits of a field, read from the field's side: the
    enumerators whose comment names the field. *)
Definition validity_bits (f : Field) : list EGNSSTimeValidityBits :=
  match f with
  | f_hour | f_minute | f_second | f_ms => [GNSS_TIME_TIME_VALID]
  | f_year | f_month | f_day => [GNSS_TIME_DATE_VALID]
  | f_scale => [GNSS_TIME_SCALE_VALID]
  | f_leapSeconds => [GNSS_TIME_LEAPSEC_VALID]
  | f_timestamp | f_validityBits => []
  end.

(** A record holding the given month, day and second, with all four
    validity bits set. *)
Definition with_date_time (m d s : Z) : TGNSSTime := {|
  timestamp := 1000; year := 2017; month := m; day := d;
  hour := 0; minute := 0; second := s; ms := 0;
  scale := GNSS_TIME_SCALE_UTC; leapSeconds := 18;
  validityBits := 0x0000000F
|}.

(** Month 12, day 0, second 61. *)
Definition out_of_range : TGNSSTime := with_date_time 12 0 61.

(** All fields of the record, in declaration order. *)
Definition fields : list Field :=
  [f_timestamp; f_year; f_month; f_day; f_hour; f_minute; f_second; f_ms;
   f_scale; f_leapSeconds; f_validityBits].

(** The fields other than [timestamp] and [validityBits]. *)
Definition is_payload (f : Field) : bool :=
  match f with
  | f_timestamp | f_validityBits => false
  | _ => true
  end.

Definition payload_fields : list Field := filter is_payload fields.

(** The fields all validity bits stand for, bit by bit. *)
Definition all_gated : list Field :=
  concat (map gated (members EGNSSTimeValidityBits)).

(** The type checks of [in_type] on the fields with a documented range. *)
Definition ranged_in_type (t : TGNSSTime) : bool :=
  is_uint8_t (month t) && is_uint8_t (day t) && is_uint8_t (hour t)
  && is_uint8_t (minute t) && is_uint8_t (second t) && is_uint16_t (ms t).

End Time.

(** ** [TGNSSSatelliteDetail] (gnss.h, lines 190-212) *)
Module SatelliteDetail.

Record TGNSSSatelliteDetail : Type := {
  timestamp : Z;            (* uint64_t *)
  system : EGNSSSystem;
  satelliteId : Z;          (* uint16_t *)
  azimuth : Z;              (* uint16_t *)
  elevation : Z;            (* uint16_t *)
  CNo : Z;                  (* uint16_t *)
  statusBits : Z;           (* uint32_t *)
  posResidual : Z;          (* int16_t *)
  validityBits : Z          (* uint32_t *)
}.

Inductive Field : Type :=
| f_timestamp | f_system | f_satelliteId | f_azimuth | f_elevation | f_CNo
| f_statusBits | f_posResidual | f_validityBits.

(** What a validity bit stands for: a whole field, or one flag of
    [statusBits] ("Validity bit for field
    TGNSSSatelliteDetail::statusBits::GNSS_SATELLITE_USED"). *)
Inductive Gated : Type :=
| WholeField (f : Field)
| StatusFlag (flag : EGNSSSatelliteFlag).

Definition gated (b : EGNSSSatelliteDetailValidityBits) : Gated :=
  match b with
  | GNSS_SATELLITE_SYSTEM_VALID => WholeField f_system
  | GNSS_SATELLITE_ID_VALID => WholeField f_satelliteId
  | GNSS_SATELLITE_AZIMUTH_VALID => WholeField f_azimuth
  | GNSS_SATELLITE_ELEVATION_VALID => WholeField f_elevation
  | GNSS_SATELLITE_CNO_VALID => WholeField f_CNo
  | GNSS_SATELLITE_USED_VALID => StatusFlag GNSS_SATELLITE_USED
  | GNSS_SATELLITE_EPHEMERIS_AVAILABLE_VALID =>
      StatusFlag GNSS_SATELLITE_EPHEMERIS_AVAILABLE
  | GNSS_SATELLITE_RESIDUAL_VALID => WholeField f_posResidual
  end.

(** The field of the record a validity bit concerns. *)
Definition gated_field (b : EGNSSSatelliteDetailValidityBits) : Field :=
  match gated b with
  | WholeField f => f
  | StatusFlag _ => f_statusBits
  end.

(** The validity bits of a field, read from the field's side: the
    enumerators whose comment names the field ([statusBits] is named by
    two, one per flag). *)
Definition validity_bits (f : Field)
  : list EGNSSSatelliteDetailValidityBits :=
  match f with
  | f_system => [GNSS_SATELLITE_SYSTEM_VALID]
  | f_satelliteId => [GNSS_SATELLITE_ID_VALID]
  | f_azimuth => [GNSS_SATELLITE_AZIMUTH_VALID]
  | f_elevation => [GNSS_SATELLITE_ELEVATION_VALID]
  | f_CNo => [GNSS_SATELLITE_CNO_VALID]
  | f_statusBits =>
      [GNSS_SATELLITE_USED_VALID; GNSS_SATELLITE_EPHEMERIS_AVAILABLE_VALID]
  | f_posResidual => [GNSS_SATELLITE_RESIDUAL_VALID]
  | f_timestamp | f_validityBits => []
  end.

Definition in_type (s : TGNSSSatelliteDetail) : bool :=
  is_uint64_t (timestamp s) && is_uint16_t (satelliteId s)
  && is_uint16_t (azimuth s) && is_uint16_t (elevation s)
  && is_uint16_t (CNo s) && is_uint32_t (statusBits s)
  && is_int16_t (posResidual s) && is_uint32_t (validityBits s).

(** The value ranges of the field comments.  [tracking] tells whether the
    receiver is tracking the satellite:
    - azimuth: "Value range 0..359";
    - elevation: "Value range 0..90";
    - CNo: "Range 0 to 99, 0 when not tracking";
    - posResidual: "Range -999 to +999, 0 if not tracking". *)
Definition documented (tracking : bool) (s : TGNSSSatelliteDetail) : bool :=
  (0 <=? azimuth s) && (azimuth s <=? 359)
  && (0 <=? elevation s) && (elevation s <=? 90)
  && (if tracking
      then (0 <=? CNo s) && (CNo s <=? 99)
      else CNo s =? 0)
  && (if tracking
      then (-999 <=? posResidual s) && (posResidual s <=? 999)
      else posResidual s =? 0).

(** The validity test of one flag of [statusBits]. *)
Definition flag_valid (s : TGNSSSatelliteDetail) (flag : EGNSSSatelliteFlag)
  : bool :=
  match flag with
  | GNSS_SATELLITE_USED => has_flag (validityBits s) GNSS_SATELLITE_USED_VALID
  | GNSS_SATELLITE_EPHEMERIS_AVAILABLE =>
      has_flag (validityBits s) GNSS_SATELLITE_EPHEMERIS_AVAILABLE_VALID
  end.

(** GPS satellite 7, tracked and used; all eight validity bits set. *)
Definition tracked_sample : TGNSSSatelliteDetail := {|
  timestamp := 1000; system := GNSS_SYSTEM_GPS; satelliteId := 7;
  azimuth := 359; elevation := 90; CNo := 99;
  statusBits := 0x00000003; posResidual := -999;
  validityBits := 0x000000FF
|}.

(** A record holding the given azimuth, elevation, C/No and residual, with
    all eight validity bits set. *)
Definition with_values (az el cno res : Z) : TGNSSSatelliteDetail := {|
  timestamp := 1000; system := GNSS_SYSTEM_GPS; satelliteId := 7;
  azimuth := az; elevation := el; CNo := cno;
  statusBits := 0x00000003; posResidual := res;
  validityBits := 0x000000FF
|}.

(** Azimuth 360, elevation 91, C/No 100, residual 1000. *)
Definition out_of_range : TGNSSSatelliteDetail := with_values 360 91 100 1000.

(** Only the USED flag has been determined. *)
Definition used_only_sample : TGNSSSatelliteDetail := {|
  timestamp := 1000; system := GNSS_SYSTEM_GPS; satelliteId := 7;
  azimuth := 10; elevation := 20; CNo := 30;
  statusBits := 0x00000001; posResidual := 0;
  validityBits := 0x00000020
|}.

(** Only the EPHEMERIS_AVAILABLE flag has been determined. *)
Definition ephemeris_only_sample : TGNSSSatelliteDetail := {|
  timestamp := 1000; system := GNSS_SYSTEM_GPS; satelliteId := 7;
  azimuth := 10; elevation := 20; CNo := 30;
  statusBits := 0x00000002; posResidual := 0;
  validityBits := 0x00000040
|}.

(** All fields of the record, in declaration order. *)
Definition fields : list Field :=
  [f_timestamp; f_system; f_satelliteId; f_azimuth; f_elevation; f_CNo;
   f_statusBits; f_posResidual; f_validityBits].

(** The fields other than [timestamp] and [validityBits]. *)
Definition is_payload (f : Field) : bool :=
  match f with
  | f_timestamp | f_validityBits => false
  | _ => true
  end.

Definition payload_fields : list Field := filter is_payload fields.

(** The type checks of [in_type] on the fields with a documented range. *)
Definition ranged_in_type (s : TGNSSSatelliteDetail) : bool :=
  is_uint16_t (azimuth s) && is_uint16_t (elevation s)
  && is_uint16_t (CNo s) && is_int16_t (posResidual s).

(** The ranges of satellite IDs in the comment of [satelliteId]:
    "1..32: GPS satellites (by PRN)", "33..64: SBAS/WAAS satellites",
    "65..96: GLONASS satellites", "1..64: GALILEO satellites". *)
Inductive IdFamily : Type :=
| GPS_ids | SBAS_WAAS_ids | GLONASS_ids | GALILEO_ids.

Definition id_range (f : IdFamily) : Z * Z :=
  match f with
  | GPS_ids => (1, 32)
  | SBAS_WAAS_ids => (33, 64)
  | GLONASS_ids => (65, 96)
  | GALILEO_ids => (1, 64)
  end.

Definition id_in_family (f : IdFamily) (id : Z) : bool :=
  (fst (id_range f) <=? id) && (id <=? snd (id_range f)).

End SatelliteDetail.

(** ** [TGNSSPosition] (gnss.h, lines 266-308) *)
Module Position.

Record TGNSSPosition : Type := {
  timestamp : Z;              (* uint64_t *)
  latitude : spec_float;      (* double *)
  longitude : spec_float;     (* double *)
  altitudeMSL : spec_float;   (* float *)
  altitudeEll : spec_float;   (* float *)
  hSpeed : spec_float;        (* float *)
  vSpeed : spec_float;        (* float *)
  heading : spec_float;       (* float *)
  pdop : spec_float;          (* float *)
  hdop : spec_float;          (* float *)
  vdop : spec_float;          (* float *)
  usedSatellites : Z;         (* uint16_t *)
  trackedSatellites : Z;      (* uint16_t *)
  visibleSatellites : Z;      (* uint16_t *)
  sigmaHPosition : spec_float; (* float *)
  sigmaAltitude : spec_float; (* float *)
  sigmaHSpeed : spec_float;   (* float *)
  sigmaVSpeed : spec_float;   (* float *)
  sigmaHeading : spec_float;  (* float *)
  fixStatus : EGNSSFixStatus;
  fixTypeBits : Z;            (* uint32_t *)
  activatedSystems : Z;       (* uint32_t *)
  usedSystems : Z;            (* uint32_t *)
  correctionAge : Z;          (* uint16_t *)
  validityBits : Z            (* uint32_t *)
}.

(** The fields of the record, in declaration order. *)
Inductive Field : Type :=
| f_timestamp | f_latitude | f_longitude | f_altitudeMSL | f_altitudeEll
| f_hSpeed | f_vSpeed | f_heading | f_pdop | f_hdop | f_vdop
| f_usedSatellites | f_trackedSatellites | f_visibleSatellites
| f_sigmaHPosition | f_sigmaAltitude | f_sigmaHSpeed | f_sigmaVSpeed
| f_sigmaHeading | f_fixStatus | f_fixTypeBits | f_activatedSystems
| f_usedSystems | f_correctionAge | f_validityBits.

Definition fields : list Field :=
  [f_timestamp; f_latitude; f_longitude; f_altitudeMSL; f_altitudeEll;
   f_hSpeed; f_vSpeed; f_heading; f_pdop; f_hdop; f_vdop;
   f_usedSatellites; f_trackedSatellites; f_visibleSatellites;
   f_sigmaHPosition; f_sigmaAltitude; f_sigmaHSpeed; f_sigmaVSpeed;
   f_sigmaHeading; f_fixStatus; f_fixTypeBits; f_activatedSystems;
   f_usedSystems; f_correctionAge; f_validityBits].

(** The two fields that carry no data of the fix itself. *)
Definition is_payload (f : Field) : bool :=
  match f with
  | f_timestamp | f_validityBits => false
  | _ => true
  end.

(** The fields other than [timestamp] and [validityBits]. *)
Definition payload_fields : list Field := filter is_payload fields.

(** The field named in a validity bit's comment ("Validity bit for field
    TGNSSPosition::latitude", ...). *)
Definition gated (b : EGNSSPositionValidityBits) : Field :=
  match b with
  | GNSS_POSITION_LATITUDE_VALID => f_latitude
  | GNSS_POSITION_LONGITUDE_VALID => f_longitude
  | GNSS_POSITION_ALTITUDEMSL_VALID => f_altitudeMSL
  | GNSS_POSITION_ALTITUDEELL_VALID => f_altitudeEll
  | GNSS_POSITION_HSPEED_VALID => f_hSpeed
  | GNSS_POSITION_VSPEED_VALID => f_vSpeed
  | GNSS_POSITION_HEADING_VALID => f_heading
  | GNSS_POSITION_PDOP_VALID => f_pdop
  | GNSS_POSITION_HDOP_VALID => f_hdop
  | GNSS_POSITION_VDOP_VALID => f_vdop
  | GNSS_POSITION_USAT_VALID => f_usedSatellites
  | GNSS_POSITION_TSAT_VALID => f_trackedSatellites
  | GNSS_POSITION_VSAT_VALID => f_visibleSatellites
  | GNSS_POSITION_SHPOS_VALID => f_sigmaHPosition
  | GNSS_POSITION_SALT_VALID => f_sigmaAltitude
  | GNSS_POSITION_SHSPEED_VALID => f_sigmaHSpeed
  | GNSS_POSITION_SVSPEED_VALID => f_sigmaVSpeed
  | GNSS_POSITION_SHEADING_VALID => f_sigmaHeading
  | GNSS_POSITION_STAT_VALID => f_fixStatus
  | GNSS_POSITION_TYPE_VALID => f_fixTypeBits
  | GNSS_POSITION_ASYS_VALID => f_activatedSystems
  | GNSS_POSITION_USYS_VALID => f_usedSystems
  | GNSS_POSITION_CORRAGE_VALID => f_correctionAge
  end.

(** The validity bits of a field, read from the field's side: the
    enumerators whose comment names the field. *)
Definition validity_bits (f : Field) : list EGNSSPositionValidityBits :=
  match f with
  | f_latitude => [GNSS_POSITION_LATITUDE_VALID]
  | f_longitude => [GNSS_POSITION_LONGITUDE_VALID]
  | f_altitudeMSL => [GNSS_POSITION_ALTITUDEMSL_VALID]
  | f_altitudeEll => [GNSS_POSITION_ALTITUDEELL_VALID]
  | f_hSpeed => [GNSS_POSITION_HSPEED_VALID]
  | f_vSpeed => [GNSS_POSITION_VSPEED_VALID]
  | f_heading => [GNSS_POSITION_HEADING_VALID]
  | f_pdop => [GNSS_POSITION_PDOP_VALID]
  | f_hdop => [GNSS_POSITION_HDOP_VALID]
  | f_vdop => [GNSS_POSITION_VDOP_VALID]
  | f_usedSatellites => [GNSS_POSITION_USAT_VALID]
  | f_trackedSatellites => [GNSS_POSITION_TSAT_VALID]
  | f_visibleSatellites => [GNSS_POSITION_VSAT_VALID]
  | f_sigmaHPosition => [GNSS_POSITION_SHPOS_VALID]
  | f_sigmaAltitude => [GNSS_POSITION_SALT_VALID]
  | f_sigmaHSpeed => [GNSS_POSITION_SHSPEED_VALID]
  | f_sigmaVSpeed => [GNSS_POSITION_SVSPEED_VALID]
  | f_sigmaHeading => [GNSS_POSITION_SHEADING_VALID]
  | f_fixStatus => [GNSS_POSITION_STAT_VALID]
  | f_fixTypeBits => [GNSS_POSITION_TYPE_VALID]
  | f_activatedSystems => [GNSS_POSITION_ASYS_VALID]
  | f_usedSystems => [GNSS_POSITION_USYS_VALID]
  | f_correctionAge => [GNSS_POSITION_CORRAGE_VALID]
  | f_timestamp | f_validityBits => []
  end.

(** Every field holds a value of its C type. *)
Definition in_type (p : TGNSSPosition) : bool :=
  is_uint64_t (timestamp p)
  && is_double (latitude p) && is_double (longitude p)
  && is_float (altitudeMSL p) && is_float (altitudeEll p)
  && is_float (hSpeed p) && is_float (vSpeed p) && is_float (heading p)
  && is_float (pdop p) && is_float (hdop p) && is_float (vdop p)
  && is_uint16_t (usedSatellites p) && is_uint16_t (trackedSatellites p)
  && is_uint16_t (visibleSatellites p)
  && is_float (sigmaHPosition p) && is_float (sigmaAltitude p)
  && is_float (sigmaHSpeed p) && is_float (sigmaVSpeed p)
  && is_float (sigmaHeading p)
  && is_uint32_t (fixTypeBits p) && is_uint32_t (activatedSystems p)
  && is_uint32_t (usedSystems p) && is_uint16_t (correctionAge p)
  && is_uint32_t (validityBits p).

(** The one value range among the field comments, on [heading]: "GNSS
    course angle [degree] (0 => north, 90 => east, 180 => south,
    270 => west, no negative values)".  The C test is
    [0.0f <= p.heading], which is false for a NaN. *)
Definition documented (p : TGNSSPosition) : bool :=
  SFleb (float_of_Z 0) (heading p).

Definition well_formed (p : TGNSSPosition) : bool :=
  in_type p && documented p.

(** [0.0f <= p.heading && p.heading < 360.0f]. *)
Definition heading_below_360 (p : TGNSSPosition) : bool :=
  SFleb (float_of_Z 0) (heading p) && SFltb (heading p) (float_of_Z 360).

(** The note on [pdop], "pdop^2 = hdop^2+vdop^2", evaluated in [float]
    arithmetic: [p.pdop * p.pdop == p.hdop * p.hdop + p.vdop * p.vdop]. *)
Definition dop_identity (p : TGNSSPosition) : bool :=
  SFeqb (float_sq (pdop p)) (float_add (float_sq (hdop p)) (float_sq (vdop p))).

(** The same note over the exact values of the three fields, on the
    common scale [2^k] (so squares are on the scale [2^(2k)]): [None] when
    a field is not finite or too small for that scale. *)
Definition dop_identity_exact (k : Z) (p : TGNSSPosition) : option bool :=
  match scaled k (pdop p), scaled k (hdop p), scaled k (vdop p) with
  | Some a, Some h, Some v => Some (a * a =? h * h + v * v)
  | _, _, _ => None
  end.

(** A 3D fix heading due north after a full turn: every field set, all 23
    validity bits set, DOP values 5, 3, 4 (so the note on [pdop] holds),
    heading 360 degrees. *)
Definition full_turn : TGNSSPosition := {|
  timestamp := 1000;
  latitude := double_of_Z 48; longitude := double_of_Z 11;
  altitudeMSL := float_of_Z 520; altitudeEll := float_of_Z 565;
  hSpeed := float_of_Z 13; vSpeed := float_of_Z 0;
  heading := float_of_Z 360;
  pdop := float_of_Z 5; hdop := float_of_Z 3; vdop := float_of_Z 4;
  usedSatellites := 9; trackedSatellites := 11; visibleSatellites := 12;
  sigmaHPosition := float_of_Z 2; sigmaAltitude := float_of_Z 3;
  sigmaHSpeed := float_of_Z 1; sigmaVSpeed := float_of_Z 1;
  sigmaHeading := float_of_Z 2;
  fixStatus := GNSS_FIX_STATUS_3D;
  fixTypeBits := 0x00000005;
  activatedSystems := 0x00000003; usedSystems := 0x00000003;
  correctionAge := 0;
  validityBits := 0x007FFFFF
|}.

(** The same fix heading east. *)
Definition eastbound : TGNSSPosition := {|
  timestamp := 1000;
  latitude := double_of_Z 48; longitude := double_of_Z 11;
  altitudeMSL := float_of_Z 520; altitudeEll := float_of_Z 565;
  hSpeed := float_of_Z 13; vSpeed := float_of_Z 0;
  heading := float_of_Z 90;
  pdop := float_of_Z 5; hdop := float_of_Z 3; vdop := float_of_Z 4;
  usedSatellites := 9; trackedSatellites := 11; visibleSatellites := 12;
  sigmaHPosition := float_of_Z 2; sigmaAltitude := float_of_Z 3;
  sigmaHSpeed := float_of_Z 1; sigmaVSpeed := float_of_Z 1;
  sigmaHeading := float_of_Z 2;
  fixStatus := GNSS_FIX_STATUS_3D;
  fixTypeBits := 0x00000005;
  activatedSystems := 0x00000003; usedSystems := 0x00000003;
  correctionAge := 0;
  validityBits := 0x007FFFFF
|}.

(** A fix whose three DOP fields are all 1, with exactly the three DOP
    validity bits set (0x80 | 0x100 | 0x200). *)
Definition inconsistent_dop : TGNSSPosition := {|
  timestamp := 1000;
  latitude := double_of_Z 0; longitude := double_of_Z 0;
  altitudeMSL := float_of_Z 0; altitudeEll := float_of_Z 0;
  hSpeed := float_of_Z 0; vSpeed := float_of_Z 0;
  heading := float_of_Z 0;
  pdop := float_of_Z 1; hdop := float_of_Z 1; vdop := float_of_Z 1;
  usedSatellites := 0; trackedSatellites := 0; visibleSatellites := 0;
  sigmaHPosition := float_of_Z 0; sigmaAltitude := float_of_Z 0;
  sigmaHSpeed := float_of_Z 0; sigmaVSpeed := float_of_Z 0;
  sigmaHeading := float_of_Z 0;
  fixStatus := GNSS_FIX_STATUS_NO;
  fixTypeBits := 0;
  activatedSystems := 0; usedSystems := 0;
  correctionAge := 0;
  validityBits := 0x00000380
|}.


(** The fields a consumer may read: the ones whose validity bit tests as
    set in [validityBits], in declaration order. *)
Definition valid_fields (p : TGNSSPosition) : list Field :=
  map gated (decode (validityBits p)).

(** A fix of which only latitude and longitude are known
    ([GNSS_POSITION_LATITUDE_VALID | GNSS_POSITION_LONGITUDE_VALID]). *)
Definition horizontal_only : TGNSSPosition := {|
  timestamp := 1000;
  latitude := double_of_Z 48; longitude := double_of_Z 11;
  altitudeMSL := float_of_Z 0; altitudeEll := float_of_Z 0;
  hSpeed := float_of_Z 0; vSpeed := float_of_Z 0;
  heading := float_of_Z 0;
  pdop := float_of_Z 0; hdop := float_of_Z 0; vdop := float_of_Z 0;
  usedSatellites := 0; trackedSatellites := 0; visibleSatellites := 0;
  sigmaHPosition := float_of_Z 0; sigmaAltitude := float_of_Z 0;
  sigmaHSpeed := float_of_Z 0; sigmaVSpeed := float_of_Z 0;
  sigmaHeading := float_of_Z 0;
  fixStatus := GNSS_FIX_STATUS_2D;
  fixTypeBits := 0;
  activatedSystems := 0; usedSystems := 0;
  correctionAge := 0;
  validityBits := 0x00000003
|}.

(** The same fix with bit 23 of [validityBits] set as well, a bit no
    enumerator names (0x00800003). *)
Definition reserved_bit_set : TGNSSPosition := {|
  timestamp := 1000;
  latitude := double_of_Z 48; longitude := double_of_Z 11;
  altitudeMSL := float_of_Z 0; altitudeEll := float_of_Z 0;
  hSpeed := float_of_Z 0; vSpeed := float_of_Z 0;
  heading := float_of_Z 0;
  pdop := float_of_Z 0; hdop := float_of_Z 0; vdop := float_of_Z 0;
  usedSatellites := 0; trackedSatellites := 0; visibleSatellites := 0;
  sigmaHPosition := float_of_Z 0; sigmaAltitude := float_of_Z 0;
  sigmaHSpeed := float_of_Z 0; sigmaVSpeed := float_of_Z 0;
  sigmaHeading := float_of_Z 0;
  fixStatus := GNSS_FIX_STATUS_2D;
  fixTypeBits := 0;
  activatedSystems := 0; usedSystems := 0;
  correctionAge := 0;
  validityBits := 0x00800003
|}.

End Position.

(** ** Properties of the enumerations, as predicates *)

(** Different enumerators have different values. *)
Definition pairwise_distinct (E : Type) `{CEnum E} : Prop :=
  forall a b : E, a <> b -> value a <> value b.

(** Every enumerator has exactly one bit set, within 32 bits. *)
Definition one_bit_each (E : Type) `{CEnum E} : Prop :=
  forall a : E,
    popcount (value a) = 1%nat /\
    0 <= bit_position a < 32 /\
    value a = 2 ^ bit_position a.

(** Or-ing any selection of enumerators gives a mask in which exactly the
    selected ones test as set. *)
Definition independently_combinable (E : Type) `{CEnum E} : Prop :=
  forall (l : list E) (a : E), has_flag (mask l) a = true <-> In a l.

Definition flag_enumeration (E : Type) `{CEnum E} : Prop :=
  pairwise_distinct E /\ one_bit_each E /\ independently_combinable E.

(** [members] lists every enumerator once. *)
Definition enumerated (E : Type) `{CEnum E} : Prop :=
  (forall e : E, In e (members E)) /\ NoDup (members E).

(** No two enumerators sit on the same bit. *)
Definition bit_positions_unique (E : Type) `{CEnum E} : Prop :=
  forall a b : E, a <> b -> bit_position a <> bit_position b.

(** No validity bit stands for two different fields. *)
Definition no_shared_bit {B F : Type} (fields_of : B -> list F) : Prop :=
  forall (b : B) (f g : F), In f (fields_of b) -> In g (fields_of b) -> f = g.

(** No field is covered by two different validity bits. *)
Definition no_shared_field {B F : Type} (fields_of : B -> list F) : Prop :=
  forall (a b : B) (f : F), In f (fields_of a) -> In f (fields_of b) -> a = b.

(** No validity bit is among the validity bits of two different fields. *)
Definition fields_share_no_bit {F B : Type} (bits_of : F -> list B) : Prop :=
  forall (f g : F) (b : B), In b (bits_of f) -> In b (bits_of g) -> f = g.

(** Order of the groups of [EGNSSFixType] in the header. *)
Definition group_rank (g : FixTypeGroup) : Z :=
  match g with
  | UsedSatelliteData => 0
  | ImprovementTechniques => 1
  | UsedCorrectionData => 2
  | PositionPropagation => 3
  | ArtificialFix => 4
  end.

(** ** Reading and writing masks *)

(** The two selections contain the same enumerators. *)
Definition same_flags {E : Type} (l l' : list E) : Prop :=
  forall a : E, In a l <-> In a l'.

(** Reading a mask and or-ing what was read gives back the bits of the
    enumeration and drops every other bit. *)
Definition reencodes (E : Type) `{CEnum E} : Prop :=
  forall bits : Z, mask (decode bits) = Z.land bits (mask (members E)).

(** Two selections give the same mask exactly when they contain the same
    enumerators. *)
Definition mask_determines_selection (E : Type) `{CEnum E} : Prop :=
  forall l l' : list E, mask l = mask l' <-> same_flags l l'.

(** Every mask lies between 0 and the or of all enumerators, and a larger
    selection gives a mask at least as large. *)
Definition masks_bounded (E : Type) `{CEnum E} : Prop :=
  forall l l' : list E,
    incl l l' -> 0 <= mask l <= mask l' /\ mask l' <= mask (members E).

(** The flag test distributes over [|] and [&] of two masks. *)
Definition tests_compose (E : Type) `{CEnum E} : Prop :=
  forall (x y : Z) (a : E),
    has_flag (Z.lor x y) a = has_flag x a || has_flag y a /\
    has_flag (Z.land x y) a = has_flag x a && has_flag y a.

(** Every or-ed selection fits a [uint32_t] field. *)
Definition fits_uint32 (E : Type) `{CEnum E} : Prop :=
  forall l : list E, is_uint32_t (mask l) = true.

(** * Proofs *)

(** ** Bits *)

Lemma Pos_popcount_pos (p : positive) : (0 < Pos_popcount p)%nat.
Proof.
  induction p as [q IH | q IH | ]; simpl; lia.
Qed.

(** A value with exactly one bit set is the power of two of its highest
    bit. *)
Lemma popcount_one_pow2 (z : Z) :
  popcount z = 1%nat -> z = 2 ^ Z.log2 z.
Proof.
  destruct z as [ | p | p]; cbn [popcount]; try discriminate.
  induction p as [q IH | q IH | ]; cbn [Pos_popcount]; intros Hc.
  - pose proof (Pos_popcount_pos q). lia.
  - specialize (IH Hc).
    rewrite Pos2Z.inj_xO, Z.log2_double by lia.
    rewrite Z.pow_succ_r by apply Z.log2_nonneg.
    now rewrite <- IH.
  - reflexivity.
Qed.

Lemma distinctb_NoDup (l : list Z) : distinctb l = true -> NoDup l.
Proof.
  induction l as [ | x r IH]; cbn [distinctb]; intros Hd.
  - constructor.
  - apply andb_prop in Hd. destruct Hd as [Hx Hr].
    constructor; [ | now apply IH].
    intros Hin. apply negb_true_iff in Hx.
    assert (Hex : existsb (Z.eqb x) r = true).
    { apply existsb_exists. exists x. split; [assumption | apply Z.eqb_refl]. }
    congruence.
Qed.

(** [x & 2^k] is [2^k] or [0], as bit [k] of [x] says. *)
Lemma land_pow2 (x k : Z) :
  0 <= k -> Z.land x (2 ^ k) = if Z.testbit x k then 2 ^ k else 0.
Proof.
  intros Hk. apply Z.bits_inj'. intros n Hn.
  rewrite Z.land_spec, Z.pow2_bits_eqb by assumption.
  destruct (Z.eqb_spec k n) as [-> | Hne].
  - destruct (Z.testbit x n); simpl.
    + rewrite Z.pow2_bits_true; trivial.
    + now rewrite Z.bits_0.
  - rewrite andb_false_r.
    destruct (Z.testbit x k).
    + rewrite Z.pow2_bits_false; trivial.
    + now rewrite Z.bits_0.
Qed.

Section FlagEnumeration.

Context {E : Type} `{CEnum E}.

Hypothesis single_bit : forall e : E, 0 <= bit_position e /\ value e = 2 ^ bit_position e.
Hypothesis positions_differ : forall a b : E, bit_position a = bit_position b -> a = b.

(** Bit [k] of an or-ed mask is set when one of the or-ed enumerators sits
    on bit [k]. *)
Lemma testbit_mask (l : list E) (k : Z) :
  0 <= k ->
  Z.testbit (mask l) k = existsb (fun e => bit_position e =? k) l.
Proof.
  intros Hk. induction l as [ | e l IH]; simpl.
  - apply Z.bits_0.
  - rewrite Z.lor_spec, IH.
    destruct (single_bit e) as [Hpos Hval].
    rewrite Hval at 1. now rewrite Z.pow2_bits_eqb.
Qed.

Lemma has_flag_mask (l : list E) (a : E) :
  has_flag (mask l) a = true <-> In a l.
Proof.
  destruct (single_bit a) as [Hpos Hval].
  unfold has_flag. rewrite Hval, land_pow2, testbit_mask by assumption.
  assert (Hnz : 2 ^ bit_position a <> 0) by (apply Z.pow_nonzero; lia).
  destruct (existsb _ l) eqn:Hex.
  - apply existsb_exists in Hex as (e & Hin & Heq).
    apply Z.eqb_eq, positions_differ in Heq. subst e.
    apply Z.eqb_neq in Hnz. rewrite Hnz. simpl. tauto.
  - rewrite Z.eqb_refl. simpl. split; [discriminate | ].
    intros Hin. exfalso.
    assert (Hc : existsb (fun e => bit_position e =? bit_position a) l = true).
    { apply existsb_exists. exists a. split; [assumption | apply Z.eqb_refl]. }
    congruence.
Qed.

Lemma values_differ (a b : E) : a <> b -> value a <> value b.
Proof.
  intros Hab Hv. apply Hab, positions_differ.
  unfold bit_position. now rewrite Hv.
Qed.

End FlagEnumeration.

(** From the two facts checked enumerator by enumerator (one bit each, no
    bit used twice) to the three properties of a flag enumeration. *)
Lemma flag_enumeration_intro (E : Type) `{CEnum E} :
  (forall e : E, popcount (value e) = 1%nat /\ 0 <= bit_position e < 32) ->
  (forall a b : E, bit_position a = bit_position b -> a = b) ->
  flag_enumeration E.
Proof.
  intros Hone Hinj.
  assert (Hbit : forall e : E, 0 <= bit_position e /\ value e = 2 ^ bit_position e).
  { intros e. destruct (Hone e) as [Hc [Hlo _]].
    split; [assumption | now apply popcount_one_pow2]. }
  repeat split.
  - intros a b. now apply values_differ.
  - apply Hone.
  - apply Hone.
  - apply Hone.
  - apply Hbit.
  - now apply has_flag_mask.
  - now apply has_flag_mask.
Qed.

Lemma flag_positions_unique (E : Type) `{CEnum E} :
  (forall a b : E, bit_position a = bit_position b -> a = b) ->
  bit_positions_unique E.
Proof.
  intros Hinj a b Hab Hpos. now apply Hab, Hinj.
Qed.

(** Case analysis over enumerators: the goal is closed by evaluation in
    every case. *)
Ltac one_bit_cases :=
  let e := fresh "e" in
  intros e; destruct e; (split; [reflexivity | unfold bit_position; cbn; lia]).

Ltac position_cases :=
  let a := fresh "a" in
  let b := fresh "b" in
  let Hab := fresh "Hab" in
  intros a b Hab; destruct a; destruct b;
  first [reflexivity | exfalso; vm_compute in Hab; discriminate Hab].

Ltac enumerated_cases :=
  split;
  [ let e := fresh "e" in
    intros e; destruct e; cbn; repeat first [left; reflexivity | right]
  | apply NoDup_map_inv with (f := value); apply distinctb_NoDup;
    reflexivity ].

(** ** The enumerations, one by one *)

Lemma EGNSSFixType_positions (a b : EGNSSFixType) :
  bit_position a = bit_position b -> a = b.
Proof. revert a b. position_cases. Qed.

Lemma EGNSSFixType_flags : flag_enumeration EGNSSFixType.
Proof.
  apply flag_enumeration_intro; [one_bit_cases | apply EGNSSFixType_positions].
Qed.

Lemma EGNSSFixType_enumerated : enumerated EGNSSFixType.
Proof. enumerated_cases. Qed.

Lemma EGNSSSystem_positions (a b : EGNSSSystem) :
  bit_position a = bit_position b -> a = b.
Proof. revert a b. position_cases. Qed.

Lemma EGNSSSystem_flags : flag_enumeration EGNSSSystem.
Proof.
  apply flag_enumeration_intro; [one_bit_cases | apply EGNSSSystem_positions].
Qed.

Lemma EGNSSSystem_enumerated : enumerated EGNSSSystem.
Proof. enumerated_cases. Qed.

Lemma EGNSSSatelliteFlag_positions (a b : EGNSSSatelliteFlag) :
  bit_position a = bit_position b -> a = b.
Proof. revert a b. position_cases. Qed.

Lemma EGNSSSatelliteFlag_flags : flag_enumeration EGNSSSatelliteFlag.
Proof.
  apply flag_enumeration_intro;
    [one_bit_cases | apply EGNSSSatelliteFlag_positions].
Qed.

Lemma EGNSSTimeValidityBits_positions (a b : EGNSSTimeValidityBits) :
  bit_position a = bit_position b -> a = b.
Proof. revert a b. position_cases. Qed.

Lemma EGNSSTimeValidityBits_flags : flag_enumeration EGNSSTimeValidityBits.
Proof.
  apply flag_enumeration_intro;
    [one_bit_cases | apply EGNSSTimeValidityBits_positions].
Qed.

Lemma EGNSSSatelliteDetailValidityBits_positions
  (a b : EGNSSSatelliteDetailValidityBits) :
  bit_position a = bit_position b -> a = b.
Proof. revert a b. position_cases. Qed.

Lemma EGNSSSatelliteDetailValidityBits_flags :
  flag_enumeration EGNSSSatelliteDetailValidityBits.
Proof.
  apply flag_enumeration_intro;
    [one_bit_cases | apply EGNSSSatelliteDetailValidityBits_positions].
Qed.

Lemma EGNSSPositionValidityBits_positions (a b : EGNSSPositionValidityBits) :
  bit_position a = bit_position b -> a = b.
Proof. revert a b. position_cases. Qed.

Lemma EGNSSPositionValidityBits_flags :
  flag_enumeration EGNSSPositionValidityBits.
Proof.
  apply flag_enumeration_intro;
    [one_bit_cases | apply EGNSSPositionValidityBits_positions].
Qed.

Lemma EGNSSPositionValidityBits_enumerated :
  enumerated EGNSSPositionValidityBits.
Proof. enumerated_cases. Qed.

(** C1: in [EGNSSFixType], [EGNSSSystem] and [EGNSSSatelliteFlag] the
    enumerators have pairwise distinct values, each value has exactly one
    bit set (it is a power of two, below 2^32), and therefore any selection
    of enumerators can be or-ed into a mask from which exactly the selected
    ones test as set. *)
Theorem flag_constants_distinct_powers_of_two :
  flag_enumeration EGNSSFixType /\
  flag_enumeration EGNSSSystem /\
  flag_enumeration EGNSSSatelliteFlag.
Proof.
  split; [ | split].
  - exact EGNSSFixType_flags.
  - exact EGNSSSystem_flags.
  - exact EGNSSSatelliteFlag_flags.
Qed.

(** The scenario of the specification: MULTI_CONSTELLATION | RTK_FIXED is
    0x4004, and tests as those two flags and no other. *)
Example fix_type_mask_scenario :
  mask [GNSS_FIX_TYPE_MULTI_CONSTELLATION; GNSS_FIX_TYPE_RTK_FIXED] = 0x4004 /\
  filter (has_flag 0x4004) (members EGNSSFixType)
  = [GNSS_FIX_TYPE_MULTI_CONSTELLATION; GNSS_FIX_TYPE_RTK_FIXED].
Proof. split; reflexivity. Qed.

(** ** Validity bits and the fields they stand for *)

(** Against C2 as first stated: in [TGNSSTime] two different fields do share
    a validity bit: [GNSS_TIME_TIME_VALID] stands for [hour] and for
    [minute] (and for [second] and [ms]). *)
Lemma time_fields_share_a_validity_bit : ~ no_shared_bit Time.gated.
Proof.
  intros Hno.
  assert (Heq : Time.f_hour = Time.f_minute).
  { apply (Hno GNSS_TIME_TIME_VALID); cbn; tauto. }
  discriminate Heq.
Qed.

Lemma time_no_shared_field : no_shared_field Time.gated.
Proof.
  intros a b f Ha Hb.
  destruct a; destruct b; try reflexivity; exfalso; cbn in Ha, Hb;
    intuition congruence.
Qed.

Lemma time_validity_bits_gated
  (f : Time.Field) (b : EGNSSTimeValidityBits) :
  In b (Time.validity_bits f) <-> In f (Time.gated b).
Proof.
  destruct f; destruct b; cbn; split; intros Hin;
    first [ contradiction
          | left; reflexivity
          | right; left; reflexivity
          | right; right; left; reflexivity
          | right; right; right; left; reflexivity
          | repeat (destruct Hin as [Hin | Hin]; [discriminate Hin | ]);
            contradiction ].
Qed.

Lemma satellite_validity_bits_gated
  (f : SatelliteDetail.Field) (b : EGNSSSatelliteDetailValidityBits) :
  In b (SatelliteDetail.validity_bits f) <-> SatelliteDetail.gated_field b = f.
Proof.
  split.
  - intros Hin. destruct f; cbn in Hin;
      repeat (destruct Hin as [<- | Hin]; [reflexivity | ]); contradiction.
  - intros <-. destruct b; cbn; tauto.
Qed.

Lemma position_validity_bits_gated
  (f : Position.Field) (b : EGNSSPositionValidityBits) :
  In b (Position.validity_bits f) <-> Position.gated b = f.
Proof.
  split.
  - intros Hin. destruct f; cbn in Hin;
      repeat (destruct Hin as [<- | Hin]; [reflexivity | ]); contradiction.
  - intros <-. destruct b; cbn; left; reflexivity.
Qed.

Lemma satellite_fields_share_no_bit :
  fields_share_no_bit SatelliteDetail.validity_bits.
Proof.
  intros f g b Hf Hg.
  apply satellite_validity_bits_gated in Hf, Hg. congruence.
Qed.

Lemma position_fields_share_no_bit :
  fields_share_no_bit Position.validity_bits.
Proof.
  intros f g b Hf Hg.
  apply position_validity_bits_gated in Hf, Hg. congruence.
Qed.

Lemma time_validity_groups :
  (forall f, In GNSS_TIME_TIME_VALID (Time.validity_bits f) <->
             f = Time.f_hour \/ f = Time.f_minute \/
             f = Time.f_second \/ f = Time.f_ms) /\
  (forall f, In GNSS_TIME_DATE_VALID (Time.validity_bits f) <->
             f = Time.f_year \/ f = Time.f_month \/ f = Time.f_day) /\
  (forall f, In GNSS_TIME_SCALE_VALID (Time.validity_bits f) <->
             f = Time.f_scale) /\
  (forall f, In GNSS_TIME_LEAPSEC_VALID (Time.validity_bits f) <->
             f = Time.f_leapSeconds).
Proof.
  repeat apply conj; intros f; destruct f; cbn; split; intros Hin;
    first [ reflexivity
          | contradiction
          | discriminate Hin
          | left; reflexivity
          | right; left; reflexivity
          | right; right; left; reflexivity
          | right; right; right; reflexivity
          | right; right; reflexivity
          | repeat (destruct Hin as [Hin | Hin]; [discriminate Hin | ]);
            first [contradiction | discriminate Hin] ].
Qed.

(** C2, in the form that holds for the header: within each of the three
    validity-bit enumerations every enumerator has exactly one bit set and
    no two enumerators sit on the same bit position.  In
    [TGNSSSatelliteDetail] and [TGNSSPosition] no two fields share a
    validity bit.  In [TGNSSTime] a validity bit stands for a group of
    fields: [GNSS_TIME_TIME_VALID] for hour, minute, second and ms,
    [GNSS_TIME_DATE_VALID] for year, month and day,
    [GNSS_TIME_SCALE_VALID] for scale and [GNSS_TIME_LEAPSEC_VALID] for
    leapSeconds; no field belongs to the groups of two bits. *)
Theorem validity_bit_positions_unique :
  (one_bit_each EGNSSTimeValidityBits /\
   bit_positions_unique EGNSSTimeValidityBits) /\
  (one_bit_each EGNSSSatelliteDetailValidityBits /\
   bit_positions_unique EGNSSSatelliteDetailValidityBits) /\
  (one_bit_each EGNSSPositionValidityBits /\
   bit_positions_unique EGNSSPositionValidityBits) /\
  (fields_share_no_bit SatelliteDetail.validity_bits /\
   forall f b, In b (SatelliteDetail.validity_bits f) <->
               SatelliteDetail.gated_field b = f) /\
  (fields_share_no_bit Position.validity_bits /\
   forall f b, In b (Position.validity_bits f) <-> Position.gated b = f) /\
  (forall f b, In b (Time.validity_bits f) <-> In f (Time.gated b)) /\
  ((forall f, In GNSS_TIME_TIME_VALID (Time.validity_bits f) <->
              f = Time.f_hour \/ f = Time.f_minute \/
              f = Time.f_second \/ f = Time.f_ms) /\
   (forall f, In GNSS_TIME_DATE_VALID (Time.validity_bits f) <->
              f = Time.f_year \/ f = Time.f_month \/ f = Time.f_day) /\
   (forall f, In GNSS_TIME_SCALE_VALID (Time.validity_bits f) <->
              f = Time.f_scale) /\
   (forall f, In GNSS_TIME_LEAPSEC_VALID (Time.validity_bits f) <->
              f = Time.f_leapSeconds)) /\
  no_shared_field Time.gated.
Proof.
  split; [split | ].
  { apply EGNSSTimeValidityBits_flags. }
  { apply flag_positions_unique, EGNSSTimeValidityBits_positions. }
  split; [split | ].
  { apply EGNSSSatelliteDetailValidityBits_flags. }
  { apply flag_positions_unique, EGNSSSatelliteDetailValidityBits_positions. }
  split; [split | ].
  { apply EGNSSPositionValidityBits_flags. }
  { apply flag_positions_unique, EGNSSPositionValidityBits_positions. }
  split; [split | ].
  { exact satellite_fields_share_no_bit. }
  { exact satellite_validity_bits_gated. }
  split; [split | ].
  { exact position_fields_share_no_bit. }
  { exact position_validity_bits_gated. }
  split; [exact time_validity_bits_gated | ].
  split; [exact time_validity_groups | exact time_no_shared_field].
Qed.

(** ** [EGNSSFixType]: number of flags and groups *)

(** Against C3 as first stated: the enumeration does not have 32 flags: it
    declares 14, and no list of 32 different enumerators exists. *)
Lemma fix_type_has_not_32_flags :
  length (members EGNSSFixType) <> 32%nat /\
  ~ (exists l : list EGNSSFixType, NoDup l /\ length l = 32%nat).
Proof.
  split; [cbn; lia | ].
  intros (l & Hnd & Hlen).
  assert (Hle : (length l <= length (members EGNSSFixType))%nat).
  { apply NoDup_incl_length; [assumption | ].
    intros e _. apply EGNSSFixType_enumerated. }
  cbn in Hle. lia.
Qed.

Lemma fix_type_groups_in_bit_order (a b : EGNSSFixType) :
  group_rank (fix_type_group a) < group_rank (fix_type_group b) ->
  bit_position a + 1 < bit_position b.
Proof.
  destruct a; destruct b; cbn; lia.
Qed.

(** C3, in the form that holds for the header: [EGNSSFixType] is an open bit
    mask within 32 bits. It declares 14 flags, each on a bit of its own and
    independently combinable; 18 of the 32 bit positions are unassigned. The
    flags form the five groups of the header, of 3, 2, 5, 2 and 2 flags, and
    between the bits of two successive groups at least one position is left
    free. *)
Theorem fix_type_open_bitmask_in_five_groups :
  enumerated EGNSSFixType /\
  length (members EGNSSFixType) = 14%nat /\
  flag_enumeration EGNSSFixType /\
  mask (members EGNSSFixType) = 0x3031F037 /\
  popcount (Z.lxor 0xFFFFFFFF (mask (members EGNSSFixType))) = 18%nat /\
  group_members UsedSatelliteData
  = [GNSS_FIX_TYPE_SINGLE_FREQUENCY; GNSS_FIX_TYPE_MULTI_FREQUENCY;
     GNSS_FIX_TYPE_MULTI_CONSTELLATION] /\
  group_members ImprovementTechniques
  = [GNSS_FIX_TYPE_PPP; GNSS_FIX_TYPE_INTEGRITY_CHECKED] /\
  group_members UsedCorrectionData
  = [GNSS_FIX_TYPE_SBAS; GNSS_FIX_TYPE_DGNSS; GNSS_FIX_TYPE_RTK_FIXED;
     GNSS_FIX_TYPE_RTK_FLOAT; GNSS_FIX_TYPE_SSR] /\
  group_members PositionPropagation
  = [GNSS_FIX_TYPE_ESTIMATED; GNSS_FIX_TYPE_DEAD_RECKONING] /\
  group_members ArtificialFix
  = [GNSS_FIX_TYPE_MANUAL; GNSS_FIX_TYPE_SIMULATOR_MODE] /\
  (forall a b : EGNSSFixType,
      group_rank (fix_type_group a) < group_rank (fix_type_group b) ->
      bit_position a + 1 < bit_position b).
Proof.
  split; [exact EGNSSFixType_enumerated | ].
  split; [reflexivity | ].
  split; [exact EGNSSFixType_flags | ].
  repeat (split; [reflexivity | ]).
  exact fix_type_groups_in_bit_order.
Qed.

(** ** [EGNSSSystem]: the SBAS systems *)

(** Against C4 as first stated: the enumeration does not have five SBAS
    systems, whether counted by name or by the 0x10000 threshold. *)
Lemma not_five_sbas_systems :
  length (filter is_SBAS (members EGNSSSystem)) <> 5%nat /\
  length (filter (fun e => SBAS_THRESHOLD <=? value e) (members EGNSSSystem))
  <> 5%nat.
Proof.
  split; cbn; lia.
Qed.

Lemma is_SBAS_threshold (e : EGNSSSystem) :
  is_SBAS e = true <-> SBAS_THRESHOLD <= value e.
Proof.
  destruct e; cbn; unfold SBAS_THRESHOLD; split;
    solve [reflexivity | discriminate | lia].
Qed.

(** C4, in the form that holds for the header: in [EGNSSSystem] the SBAS
    systems are exactly the enumerators with value >= 0x10000; there are six
    of them (WAAS, EGNOS, MSAS, QZSS-SAIF, SDCM, GAGAN); every other
    enumerator has a value below 0x10000. *)
Theorem sbas_systems_from_0x10000 :
  enumerated EGNSSSystem /\
  (forall e : EGNSSSystem, is_SBAS e = true <-> SBAS_THRESHOLD <= value e) /\
  filter is_SBAS (members EGNSSSystem)
  = [GNSS_SYSTEM_SBAS_WAAS; GNSS_SYSTEM_SBAS_EGNOS; GNSS_SYSTEM_SBAS_MSAS;
     GNSS_SYSTEM_SBAS_QZSS_SAIF; GNSS_SYSTEM_SBAS_SDCM;
     GNSS_SYSTEM_SBAS_GAGAN] /\
  length (filter is_SBAS (members EGNSSSystem)) = 6%nat /\
  (forall e : EGNSSSystem, is_SBAS e = false -> value e < SBAS_THRESHOLD).
Proof.
  split; [exact EGNSSSystem_enumerated | ].
  split; [exact is_SBAS_threshold | ].
  split; [reflexivity | ].
  split; [reflexivity | ].
  intros e He.
  destruct (Z.lt_ge_cases (value e) SBAS_THRESHOLD) as [Hlt | Hge];
    [assumption | ].
  apply is_SBAS_threshold in Hge. congruence.
Qed.

(** The six SBAS systems serve five regions: MSAS and QZSS-SAIF are both
    Japanese. *)
Example sbas_regions :
  sbas_region GNSS_SYSTEM_SBAS_MSAS = sbas_region GNSS_SYSTEM_SBAS_QZSS_SAIF /\
  (forall e, is_SBAS e = true <-> sbas_region e <> None) /\
  (forall r : SBASRegion, exists e, sbas_region e = Some r).
Proof.
  split; [reflexivity | split].
  - intros e. destruct e; cbn; split; congruence.
  - intros r. destruct r;
      [ exists GNSS_SYSTEM_SBAS_WAAS | exists GNSS_SYSTEM_SBAS_EGNOS
      | exists GNSS_SYSTEM_SBAS_MSAS | exists GNSS_SYSTEM_SBAS_SDCM
      | exists GNSS_SYSTEM_SBAS_GAGAN ]; reflexivity.
Qed.

(** ** Documented value ranges *)

(** Turns the boolean range checks of a hypothesis into inequalities
    over [Z]. *)
Ltac checks_to_Z H :=
  rewrite ?andb_true_iff, ?Z.leb_le, ?Z.ltb_lt, ?Z.eqb_eq in H.












(** ** [TGNSSPosition]: heading and dilution of precision *)





Example heading_boundaries :
  Position.heading_below_360 Position.eastbound = true /\
  Position.heading_below_360 Position.inconsistent_dop = true /\
  Position.heading_below_360 Position.full_turn = false /\
  Position.dop_identity Position.full_turn = true.
Proof. repeat split. Qed.

(** C8: the note "pdop^2 = hdop^2+vdop^2" is not enforced by the record:
    there is a [TGNSSPosition] whose fields all hold values of their C
    types (and which is well formed), whose three DOP validity bits are
    set, and whose [pdop], [hdop] and [vdop] violate the identity, both in
    [float] arithmetic and over the exact values (1 <> 1 + 1). *)
Theorem dop_identity_not_enforced :
  exists p : Position.TGNSSPosition,
    Position.in_type p = true /\
    Position.well_formed p = true /\
    has_flag (Position.validityBits p) GNSS_POSITION_PDOP_VALID = true /\
    has_flag (Position.validityBits p) GNSS_POSITION_HDOP_VALID = true /\
    has_flag (Position.validityBits p) GNSS_POSITION_VDOP_VALID = true /\
    Position.dop_identity p = false /\
    Position.dop_identity_exact 23 p = Some false.
Proof.
  exists Position.inconsistent_dop.
  repeat (split; [vm_compute; reflexivity | ]).
  vm_compute. reflexivity.
Qed.

(** ** [EGNSSPositionValidityBits] against the fields of [TGNSSPosition] *)

Lemma position_gated_injective (a b : EGNSSPositionValidityBits) :
  Position.gated a = Position.gated b -> a = b.
Proof.
  revert a b. intros a b Hab. destruct a; destruct b;
    first [reflexivity | discriminate Hab].
Qed.

Lemma position_gated_payload (f : Position.Field) :
  Position.is_payload f = true <-> exists b, Position.gated b = f.
Proof.
  split.
  - intros Hf.
    assert (Hin : In f (map Position.gated (members EGNSSPositionValidityBits))).
    { destruct f; cbn in Hf; try discriminate Hf; cbn; tauto. }
    apply in_map_iff in Hin as (b & Hb & _). now exists b.
  - intros (b & <-). destruct b; reflexivity.
Qed.

Lemma position_payload_fields_NoDup : NoDup Position.payload_fields.
Proof.
  change Position.payload_fields
    with (map Position.gated (members EGNSSPositionValidityBits)).
  apply Injective_map_NoDup.
  - exact position_gated_injective.
  - apply EGNSSPositionValidityBits_enumerated.
Qed.

(** C9: [EGNSSPositionValidityBits] has exactly 23 enumerators, on the
    consecutive bit positions 0 to 22; [TGNSSPosition] has exactly 23
    fields besides [timestamp] and [validityBits]; and the enumerators
    correspond one to one to those fields, in declaration order: bit [i]
    stands for the [i]-th such field, different bits for different fields,
    and every such field has its bit. *)
Theorem position_validity_bits_one_per_field :
  enumerated EGNSSPositionValidityBits /\
  length (members EGNSSPositionValidityBits) = 23%nat /\
  map bit_position (members EGNSSPositionValidityBits)
  = map Z.of_nat (seq 0 23) /\
  one_bit_each EGNSSPositionValidityBits /\
  mask (members EGNSSPositionValidityBits) = 2 ^ 23 - 1 /\
  length Position.payload_fields = 23%nat /\
  NoDup Position.payload_fields /\
  map Position.gated (members EGNSSPositionValidityBits)
  = Position.payload_fields /\
  (forall a b : EGNSSPositionValidityBits,
      Position.gated a = Position.gated b -> a = b) /\
  (forall f : Position.Field,
      Position.is_payload f = true <-> exists b, Position.gated b = f).
Proof.
  split; [exact EGNSSPositionValidityBits_enumerated | ].
  split; [reflexivity | ].
  split; [reflexivity | ].
  split; [apply EGNSSPositionValidityBits_flags | ].
  split; [reflexivity | ].
  split; [reflexivity | ].
  split; [exact position_payload_fields_NoDup | ].
  split; [reflexivity | ].
  split; [exact position_gated_injective | exact position_gated_payload].
Qed.

(** ** [statusBits] of [TGNSSSatelliteDetail] *)

Lemma status_flag_bits (b : EGNSSSatelliteDetailValidityBits)
  (flag : EGNSSSatelliteFlag) :
  SatelliteDetail.gated b = SatelliteDetail.StatusFlag flag <->
  b = match flag with
      | GNSS_SATELLITE_USED => GNSS_SATELLITE_USED_VALID
      | GNSS_SATELLITE_EPHEMERIS_AVAILABLE =>
          GNSS_SATELLITE_EPHEMERIS_AVAILABLE_VALID
      end.
Proof.
  destruct b; destruct flag; cbn; split; intros Heq;
    first [reflexivity | discriminate Heq].
Qed.

(** C10: the validity of [statusBits] is given flag by flag.  USED and
    EPHEMERIS_AVAILABLE each have a validity bit of their own
    ([GNSS_SATELLITE_USED_VALID] on bit 5,
    [GNSS_SATELLITE_EPHEMERIS_AVAILABLE_VALID] on bit 6), no validity bit
    stands for [statusBits] as a whole, and the two validities are
    independent: each of the four combinations occurs in a well-typed
    record, in particular one flag valid and the other not. *)
Theorem status_bits_validity_per_flag :
  (forall b flag,
      SatelliteDetail.gated b = SatelliteDetail.StatusFlag flag <->
      b = match flag with
          | GNSS_SATELLITE_USED => GNSS_SATELLITE_USED_VALID
          | GNSS_SATELLITE_EPHEMERIS_AVAILABLE =>
              GNSS_SATELLITE_EPHEMERIS_AVAILABLE_VALID
          end) /\
  (forall b,
      SatelliteDetail.gated b
      <> SatelliteDetail.WholeField SatelliteDetail.f_statusBits) /\
  bit_position GNSS_SATELLITE_USED_VALID = 5 /\
  bit_position GNSS_SATELLITE_EPHEMERIS_AVAILABLE_VALID = 6 /\
  value GNSS_SATELLITE_USED_VALID
  <> value GNSS_SATELLITE_EPHEMERIS_AVAILABLE_VALID /\
  (forall used_valid ephemeris_valid : bool,
      exists s : SatelliteDetail.TGNSSSatelliteDetail,
        SatelliteDetail.in_type s = true /\
        SatelliteDetail.flag_valid s GNSS_SATELLITE_USED = used_valid /\
        SatelliteDetail.flag_valid s GNSS_SATELLITE_EPHEMERIS_AVAILABLE
        = ephemeris_valid).
Proof.
  split; [exact status_flag_bits | ].
  split; [intros b; destruct b; discriminate | ].
  split; [reflexivity | ].
  split; [reflexivity | ].
  split; [discriminate | ].
  intros [ | ] [ | ].
  - exists SatelliteDetail.tracked_sample. repeat split.
  - exists SatelliteDetail.used_only_sample. repeat split.
  - exists SatelliteDetail.ephemeris_only_sample. repeat split.
  - exists {| SatelliteDetail.timestamp := 0;
              SatelliteDetail.system := GNSS_SYSTEM_GPS;
              SatelliteDetail.satelliteId := 1;
              SatelliteDetail.azimuth := 0; SatelliteDetail.elevation := 0;
              SatelliteDetail.CNo := 0; SatelliteDetail.statusBits := 0;
              SatelliteDetail.posResidual := 0;
              SatelliteDetail.validityBits := 0 |}.
    repeat split.
Qed.

(** One flag of [statusBits] valid while the other is not, both ways. *)
Example one_status_flag_valid_alone :
  SatelliteDetail.flag_valid SatelliteDetail.used_only_sample
    GNSS_SATELLITE_USED = true /\
  SatelliteDetail.flag_valid SatelliteDetail.used_only_sample
    GNSS_SATELLITE_EPHEMERIS_AVAILABLE = false /\
  SatelliteDetail.flag_valid SatelliteDetail.ephemeris_only_sample
    GNSS_SATELLITE_USED = false /\
  SatelliteDetail.flag_valid SatelliteDetail.ephemeris_only_sample
    GNSS_SATELLITE_EPHEMERIS_AVAILABLE = true.
Proof. repeat split. Qed.

(** * Masks in general *)

Lemma lor_ge_l (x y : Z) : 0 <= x -> 0 <= y -> x <= Z.lor x y.
Proof.
  intros Hx Hy.
  assert (Hd : 0 <= Z.ldiff (Z.lor x y) x).
  { apply Z.ldiff_nonneg. left. now apply Z.lor_nonneg. }
  assert (Hs : Z.lor x y - x = Z.ldiff (Z.lor x y) x).
  { apply Z.sub_nocarry_ldiff. apply Z.bits_inj'. intros n Hn.
    rewrite Z.ldiff_spec, Z.lor_spec, Z.bits_0.
    destruct (Z.testbit x n); destruct (Z.testbit y n); reflexivity. }
  lia.
Qed.

Lemma land_le_r (x y : Z) : 0 <= y -> Z.land x y <= y.
Proof.
  intros Hy.
  assert (Hd : 0 <= Z.ldiff y (Z.land x y)) by (apply Z.ldiff_nonneg; now left).
  assert (Hs : y - Z.land x y = Z.ldiff y (Z.land x y)).
  { apply Z.sub_nocarry_ldiff. apply Z.bits_inj'. intros n Hn.
    rewrite Z.ldiff_spec, Z.land_spec, Z.bits_0.
    destruct (Z.testbit x n); destruct (Z.testbit y n); reflexivity. }
  lia.
Qed.

Section MaskCoding.

Context {E : Type} `{CEnum E}.

Hypothesis single_bit : forall e : E, 0 <= bit_position e /\ value e = 2 ^ bit_position e.
Hypothesis positions_differ : forall a b : E, bit_position a = bit_position b -> a = b.

(** The flag test reads one bit of the mask. *)
Lemma has_flag_testbit (bits : Z) (e : E) :
  has_flag bits e = Z.testbit bits (bit_position e).
Proof.
  destruct (single_bit e) as [Hpos Hval].
  unfold has_flag. rewrite Hval, land_pow2 by assumption.
  destruct (Z.testbit bits (bit_position e)).
  - assert (Hnz : 2 ^ bit_position e <> 0) by (apply Z.pow_nonzero; lia).
    apply Z.eqb_neq in Hnz. now rewrite Hnz.
  - reflexivity.
Qed.

Lemma existsb_position_filter (bits k : Z) (l : list E) :
  existsb (fun e => bit_position e =? k) (filter (has_flag bits) l)
  = Z.testbit bits k && existsb (fun e => bit_position e =? k) l.
Proof.
  induction l as [ | e l IH].
  - cbn. now rewrite andb_false_r.
  - cbn [filter existsb]. rewrite andb_orb_distrib_r, <- IH.
    rewrite has_flag_testbit.
    destruct (Z.eqb_spec (bit_position e) k) as [Hek | Hek].
    + rewrite Hek.
      destruct (Z.testbit bits k); cbn [existsb andb orb]; [ | reflexivity].
      rewrite Hek, Z.eqb_refl. reflexivity.
    + rewrite andb_false_r.
      destruct (Z.testbit bits (bit_position e)); cbn [existsb andb orb];
        [ | reflexivity].
      apply Z.eqb_neq in Hek. rewrite Hek. reflexivity.
Qed.

Lemma mask_decode (bits : Z) :
  mask (decode bits) = Z.land bits (mask (members E)).
Proof.
  apply Z.bits_inj'. intros k Hk. unfold decode.
  rewrite Z.land_spec.
  rewrite !(testbit_mask single_bit) by assumption.
  apply existsb_position_filter.
Qed.

Lemma mask_same_flags (l l' : list E) :
  mask l = mask l' <-> same_flags l l'.
Proof.
  split.
  - intros Heq a.
    rewrite <- !(has_flag_mask single_bit positions_differ), Heq.
    reflexivity.
  - intros Hsame. apply Z.bits_inj'. intros k Hk.
    rewrite !(testbit_mask single_bit) by assumption.
    apply eq_true_iff_eq. rewrite !existsb_exists.
    split; intros (e & Hin & He); exists e; (split; [now apply Hsame | assumption]).
Qed.

Lemma mask_nonneg (l : list E) : 0 <= mask l.
Proof.
  induction l as [ | e l IH]; cbn [mask fold_right]; [lia | ].
  apply Z.lor_nonneg. split; [ | exact IH].
  destruct (single_bit e) as [Hpos ->]. apply Z.pow_nonneg. lia.
Qed.

Lemma mask_incl (l l' : list E) : incl l l' -> mask l <= mask l'.
Proof.
  intros Hincl.
  assert (Hland : Z.land (mask l) (mask l') = mask l).
  { apply Z.bits_inj'. intros k Hk.
    rewrite Z.land_spec, !(testbit_mask single_bit) by assumption.
    destruct (existsb (fun e => bit_position e =? k) l) eqn:Hl; [ | reflexivity].
    apply existsb_exists in Hl as (e & Hin & He). cbn.
    apply existsb_exists. exists e. split; [now apply Hincl | assumption]. }
  rewrite <- Hland. apply land_le_r, mask_nonneg.
Qed.

Lemma value_le_mask (e : E) (l : list E) : In e l -> value e <= mask l.
Proof.
  intros Hin.
  assert (Hle : mask [e] <= mask l).
  { apply mask_incl. intros a [<- | []]. assumption. }
  cbn in Hle. now rewrite Z.lor_0_r in Hle.
Qed.

Lemma has_flag_lor_land (x y : Z) (a : E) :
  has_flag (Z.lor x y) a = has_flag x a || has_flag y a /\
  has_flag (Z.land x y) a = has_flag x a && has_flag y a.
Proof.
  rewrite !has_flag_testbit, Z.lor_spec, Z.land_spec. split; reflexivity.
Qed.

End MaskCoding.

Lemma one_bit_single (E : Type) `{CEnum E} :
  one_bit_each E ->
  forall e : E, 0 <= bit_position e /\ value e = 2 ^ bit_position e.
Proof.
  intros Hone e. destruct (Hone e) as (_ & [Hlo _] & Hval). now split.
Qed.

Lemma reencodes_intro (E : Type) `{CEnum E} : one_bit_each E -> reencodes E.
Proof.
  intros Hone bits. apply mask_decode. now apply one_bit_single.
Qed.

Lemma mask_determines_selection_intro (E : Type) `{CEnum E} :
  one_bit_each E ->
  (forall a b : E, bit_position a = bit_position b -> a = b) ->
  mask_determines_selection E.
Proof.
  intros Hone Hinj l l'. apply mask_same_flags; [now apply one_bit_single | exact Hinj].
Qed.

Lemma masks_bounded_intro (E : Type) `{CEnum E} :
  one_bit_each E -> enumerated E -> masks_bounded E.
Proof.
  intros Hone [Hfull _] l l' Hincl.
  pose proof (one_bit_single E Hone) as Hbit.
  repeat split.
  - now apply mask_nonneg.
  - now apply mask_incl.
  - apply mask_incl; [assumption | ]. intros e _. apply Hfull.
Qed.

Lemma fits_uint32_intro (E : Type) `{CEnum E} :
  masks_bounded E -> mask (members E) < 2 ^ 32 -> fits_uint32 E.
Proof.
  intros Hb Hall l.
  destruct (Hb l l (incl_refl l)) as [[Hlo _] Hhi].
  unfold is_uint32_t. apply andb_true_intro. split.
  - now apply Z.leb_le.
  - apply Z.ltb_lt. lia.
Qed.

Lemma tests_compose_intro (E : Type) `{CEnum E} :
  one_bit_each E -> tests_compose E.
Proof.
  intros Hone x y a. apply has_flag_lor_land. now apply one_bit_single.
Qed.

Lemma EGNSSSatelliteFlag_enumerated : enumerated EGNSSSatelliteFlag.
Proof. enumerated_cases. Qed.

Lemma EGNSSTimeValidityBits_enumerated : enumerated EGNSSTimeValidityBits.
Proof. enumerated_cases. Qed.

Lemma EGNSSSatelliteDetailValidityBits_enumerated :
  enumerated EGNSSSatelliteDetailValidityBits.
Proof. enumerated_cases. Qed.

(** X1: for each of the six bit-mask enumerations, reading the flags out
    of any integer and or-ing them again gives the integer restricted to
    the bits of the enumeration: every declared flag that was set is kept,
    every other bit is dropped. *)
Theorem masks_reencode :
  reencodes EGNSSFixType /\
  reencodes EGNSSSystem /\
  reencodes EGNSSSatelliteFlag /\
  reencodes EGNSSTimeValidityBits /\
  reencodes EGNSSSatelliteDetailValidityBits /\
  reencodes EGNSSPositionValidityBits.
Proof.
  repeat apply conj; apply reencodes_intro.
  - apply EGNSSFixType_flags.
  - apply EGNSSSystem_flags.
  - apply EGNSSSatelliteFlag_flags.
  - apply EGNSSTimeValidityBits_flags.
  - apply EGNSSSatelliteDetailValidityBits_flags.
  - apply EGNSSPositionValidityBits_flags.
Qed.

(** A mask with bits outside the enumeration: 0x80000005 reads as
    SINGLE_FREQUENCY and MULTI_CONSTELLATION, and writes back as 0x5. *)
Example reencode_drops_unknown_bits :
  decode 0x80000005
  = [GNSS_FIX_TYPE_SINGLE_FREQUENCY; GNSS_FIX_TYPE_MULTI_CONSTELLATION] /\
  mask (decode (E := EGNSSFixType) 0x80000005) = 0x5.
Proof. split; reflexivity. Qed.

(** X2: for each of the six bit-mask enumerations, two selections of flags
    give the same mask exactly when they contain the same flags; order and
    repetition in the selection do not matter, and different sets of flags
    never collide. *)
Theorem masks_determine_selection :
  mask_determines_selection EGNSSFixType /\
  mask_determines_selection EGNSSSystem /\
  mask_determines_selection EGNSSSatelliteFlag /\
  mask_determines_selection EGNSSTimeValidityBits /\
  mask_determines_selection EGNSSSatelliteDetailValidityBits /\
  mask_determines_selection EGNSSPositionValidityBits.
Proof.
  repeat apply conj; apply mask_determines_selection_intro.
  - apply EGNSSFixType_flags.
  - apply EGNSSFixType_positions.
  - apply EGNSSSystem_flags.
  - apply EGNSSSystem_positions.
  - apply EGNSSSatelliteFlag_flags.
  - apply EGNSSSatelliteFlag_positions.
  - apply EGNSSTimeValidityBits_flags.
  - apply EGNSSTimeValidityBits_positions.
  - apply EGNSSSatelliteDetailValidityBits_flags.
  - apply EGNSSSatelliteDetailValidityBits_positions.
  - apply EGNSSPositionValidityBits_flags.
  - apply EGNSSPositionValidityBits_positions.
Qed.

Lemma EGNSSFixType_bounded : masks_bounded EGNSSFixType.
Proof.
  apply masks_bounded_intro;
    [apply EGNSSFixType_flags | apply EGNSSFixType_enumerated].
Qed.

Lemma EGNSSSystem_bounded : masks_bounded EGNSSSystem.
Proof.
  apply masks_bounded_intro;
    [apply EGNSSSystem_flags | apply EGNSSSystem_enumerated].
Qed.

Lemma EGNSSSatelliteFlag_bounded : masks_bounded EGNSSSatelliteFlag.
Proof.
  apply masks_bounded_intro;
    [apply EGNSSSatelliteFlag_flags | apply EGNSSSatelliteFlag_enumerated].
Qed.

Lemma EGNSSTimeValidityBits_bounded : masks_bounded EGNSSTimeValidityBits.
Proof.
  apply masks_bounded_intro;
    [apply EGNSSTimeValidityBits_flags
    | apply EGNSSTimeValidityBits_enumerated].
Qed.

Lemma EGNSSSatelliteDetailValidityBits_bounded :
  masks_bounded EGNSSSatelliteDetailValidityBits.
Proof.
  apply masks_bounded_intro;
    [apply EGNSSSatelliteDetailValidityBits_flags
    | apply EGNSSSatelliteDetailValidityBits_enumerated].
Qed.

Lemma EGNSSPositionValidityBits_bounded :
  masks_bounded EGNSSPositionValidityBits.
Proof.
  apply masks_bounded_intro;
    [apply EGNSSPositionValidityBits_flags
    | apply EGNSSPositionValidityBits_enumerated].
Qed.

(** X3: for each of the six bit-mask enumerations, or-ing is monotone (a
    larger selection gives a mask at least as large), every mask lies
    between 0 and the or of all enumerators (0x3031F037 for the fix types,
    0x3F00FF for the systems, 0x3 for the satellite flags, 0xF, 0xFF and
    0x7FFFFF for the validity bits), and so every mask fits the [uint32_t]
    field that carries it. *)
Theorem masks_fit_their_field :
  (masks_bounded EGNSSFixType /\ fits_uint32 EGNSSFixType /\
   mask (members EGNSSFixType) = 0x3031F037) /\
  (masks_bounded EGNSSSystem /\ fits_uint32 EGNSSSystem /\
   mask (members EGNSSSystem) = 0x003F00FF) /\
  (masks_bounded EGNSSSatelliteFlag /\ fits_uint32 EGNSSSatelliteFlag /\
   mask (members EGNSSSatelliteFlag) = 0x00000003) /\
  (masks_bounded EGNSSTimeValidityBits /\
   fits_uint32 EGNSSTimeValidityBits /\
   mask (members EGNSSTimeValidityBits) = 0x0000000F) /\
  (masks_bounded EGNSSSatelliteDetailValidityBits /\
   fits_uint32 EGNSSSatelliteDetailValidityBits /\
   mask (members EGNSSSatelliteDetailValidityBits) = 0x000000FF) /\
  (masks_bounded EGNSSPositionValidityBits /\
   fits_uint32 EGNSSPositionValidityBits /\
   mask (members EGNSSPositionValidityBits) = 0x007FFFFF).
Proof.
  repeat apply conj;
    try reflexivity;
    try (apply fits_uint32_intro; [ | reflexivity]).
  - exact EGNSSFixType_bounded.
  - exact EGNSSFixType_bounded.
  - exact EGNSSSystem_bounded.
  - exact EGNSSSystem_bounded.
  - exact EGNSSSatelliteFlag_bounded.
  - exact EGNSSSatelliteFlag_bounded.
  - exact EGNSSTimeValidityBits_bounded.
  - exact EGNSSTimeValidityBits_bounded.
  - exact EGNSSSatelliteDetailValidityBits_bounded.
  - exact EGNSSSatelliteDetailValidityBits_bounded.
  - exact EGNSSPositionValidityBits_bounded.
  - exact EGNSSPositionValidityBits_bounded.
Qed.

(** X4: for each of the six bit-mask enumerations, a flag tests as set in
    [x | y] when it is set in [x] or in [y], and in [x & y] when it is set
    in both. *)
Theorem flag_tests_compose :
  tests_compose EGNSSFixType /\
  tests_compose EGNSSSystem /\
  tests_compose EGNSSSatelliteFlag /\
  tests_compose EGNSSTimeValidityBits /\
  tests_compose EGNSSSatelliteDetailValidityBits /\
  tests_compose EGNSSPositionValidityBits.
Proof.
  repeat apply conj; apply tests_compose_intro.
  - apply EGNSSFixType_flags.
  - apply EGNSSSystem_flags.
  - apply EGNSSSatelliteFlag_flags.
  - apply EGNSSTimeValidityBits_flags.
  - apply EGNSSSatelliteDetailValidityBits_flags.
  - apply EGNSSPositionValidityBits_flags.
Qed.

(** * Masks of satellite systems *)

Lemma no_SBAS_below_0x100 (l : list EGNSSSystem) :
  (forall e, In e l -> is_SBAS e = false) -> mask l <= 0xFF.
Proof.
  intros Hno.
  change 0xFF
    with (mask (filter (fun e => negb (is_SBAS e)) (members EGNSSSystem))).
  apply mask_incl.
  - apply one_bit_single, EGNSSSystem_flags.
  - intros e Hin. apply filter_In. split.
    + apply EGNSSSystem_enumerated.
    + now rewrite (Hno e Hin).
Qed.

(** X5: a mask of satellite systems (as in [activatedSystems] and
    [usedSystems]) is at least 0x10000 exactly when it contains an SBAS
    system; a mask without SBAS systems is at most 0xFF. *)
Theorem sbas_in_mask_iff_above_threshold (l : list EGNSSSystem) :
  (SBAS_THRESHOLD <= mask l <-> exists e, In e l /\ is_SBAS e = true) /\
  (mask l < SBAS_THRESHOLD <-> mask l <= 0xFF).
Proof.
  assert (Hsome : (exists e, In e l /\ is_SBAS e = true) ->
                  SBAS_THRESHOLD <= mask l).
  { intros (e & Hin & He).
    apply is_SBAS_threshold in He.
    pose proof (value_le_mask (one_bit_single _ (proj1 (proj2 EGNSSSystem_flags)))
                  e l Hin).
    lia. }
  assert (Hnone : ~ (exists e, In e l /\ is_SBAS e = true) -> mask l <= 0xFF).
  { intros Hno. apply no_SBAS_below_0x100. intros e Hin.
    destruct (is_SBAS e) eqn:He; [ | reflexivity].
    exfalso. apply Hno. now exists e. }
  assert (Hdec : (exists e, In e l /\ is_SBAS e = true) \/
                 ~ (exists e, In e l /\ is_SBAS e = true)).
  { destruct (existsb is_SBAS l) eqn:Hex.
    - left. now apply existsb_exists.
    - right. intros Hsbas. apply existsb_exists in Hsbas. congruence. }
  unfold SBAS_THRESHOLD in *.
  split; split.
  - intros Hge. destruct Hdec as [Hyes | Hno]; [assumption | ].
    specialize (Hnone Hno). lia.
  - exact Hsome.
  - intros Hlt. destruct Hdec as [Hyes | Hno]; [ | now apply Hnone].
    specialize (Hsome Hyes). lia.
  - lia.
Qed.

(** * Validity bits of [TGNSSTime] and [TGNSSSatelliteDetail] *)

(** A list of distinct constructors has no duplicates. *)
Ltac distinct_constructors :=
  repeat (constructor;
          [ let Hin := fresh "Hin" in
            cbn; intros Hin;
            repeat (destruct Hin as [Hin | Hin]; [discriminate Hin | ]);
            exact Hin
          | ]);
  constructor.

Lemma time_gated_unique (f : Time.Field) (a b : EGNSSTimeValidityBits) :
  In f (Time.gated a) -> In f (Time.gated b) -> a = b.
Proof. apply time_no_shared_field. Qed.

(** X6: [EGNSSTimeValidityBits] has four enumerators, on the consecutive
    bit positions 0 to 3.  Each of the nine fields of [TGNSSTime] besides
    [timestamp] and [validityBits] is covered by exactly one validity bit,
    and those two fields by none. *)
Theorem time_validity_bits_cover_fields :
  enumerated EGNSSTimeValidityBits /\
  map bit_position (members EGNSSTimeValidityBits) = [0; 1; 2; 3] /\
  length Time.payload_fields = 9%nat /\
  length Time.all_gated = 9%nat /\
  NoDup Time.all_gated /\
  (forall f : Time.Field,
      Time.is_payload f = true <->
      exists b, In f (Time.gated b) /\
                forall b', In f (Time.gated b') -> b' = b).
Proof.
  split; [exact EGNSSTimeValidityBits_enumerated | ].
  split; [reflexivity | ].
  split; [reflexivity | ].
  split; [reflexivity | ].
  split; [cbv; distinct_constructors | ].
  intros f. split.
  - intros Hf.
    assert (Hex : exists b, In f (Time.gated b)).
    { destruct f; cbn in Hf; try discriminate Hf;
        [ exists GNSS_TIME_DATE_VALID | exists GNSS_TIME_DATE_VALID
        | exists GNSS_TIME_DATE_VALID | exists GNSS_TIME_TIME_VALID
        | exists GNSS_TIME_TIME_VALID | exists GNSS_TIME_TIME_VALID
        | exists GNSS_TIME_TIME_VALID | exists GNSS_TIME_SCALE_VALID
        | exists GNSS_TIME_LEAPSEC_VALID ]; cbn; tauto. }
    destruct Hex as (b & Hb). exists b. split; [assumption | ].
    intros b' Hb'. now apply (time_gated_unique f).
  - intros (b & Hb & _).
    destruct b; cbn in Hb; intuition (subst; reflexivity).
Qed.

(** X7: [EGNSSSatelliteDetailValidityBits] has eight enumerators, on the
    consecutive bit positions 0 to 7.  Each of the seven fields of
    [TGNSSSatelliteDetail] besides [timestamp] and [validityBits] has a
    validity bit; [statusBits] has two (one per flag) and every other field
    exactly one. *)
Theorem satellite_validity_bits_cover_fields :
  enumerated EGNSSSatelliteDetailValidityBits /\
  map bit_position (members EGNSSSatelliteDetailValidityBits)
  = [0; 1; 2; 3; 4; 5; 6; 7] /\
  length SatelliteDetail.payload_fields = 7%nat /\
  (forall f : SatelliteDetail.Field,
      SatelliteDetail.is_payload f = true <->
      exists b, SatelliteDetail.gated_field b = f) /\
  (forall a b : EGNSSSatelliteDetailValidityBits,
      SatelliteDetail.gated_field a = SatelliteDetail.gated_field b ->
      a = b \/ SatelliteDetail.gated_field a = SatelliteDetail.f_statusBits) /\
  (forall b : EGNSSSatelliteDetailValidityBits,
      SatelliteDetail.gated_field b = SatelliteDetail.f_statusBits <->
      b = GNSS_SATELLITE_USED_VALID \/
      b = GNSS_SATELLITE_EPHEMERIS_AVAILABLE_VALID).
Proof.
  split; [exact EGNSSSatelliteDetailValidityBits_enumerated | ].
  split; [reflexivity | ].
  split; [reflexivity | ].
  split; [ | split].
  - intros f. split.
    + intros Hf.
      destruct f; cbn in Hf; try discriminate Hf;
        [ exists GNSS_SATELLITE_SYSTEM_VALID | exists GNSS_SATELLITE_ID_VALID
        | exists GNSS_SATELLITE_AZIMUTH_VALID
        | exists GNSS_SATELLITE_ELEVATION_VALID
        | exists GNSS_SATELLITE_CNO_VALID | exists GNSS_SATELLITE_USED_VALID
        | exists GNSS_SATELLITE_RESIDUAL_VALID ]; reflexivity.
    + intros (b & <-). destruct b; reflexivity.
  - intros a b Hab.
    destruct a; destruct b;
      first [left; reflexivity | right; reflexivity | discriminate Hab].
  - intros b. destruct b; cbn; split; intros Hb;
      first [ discriminate Hb | left; reflexivity | right; reflexivity
            | reflexivity | destruct Hb as [Hb | Hb]; discriminate Hb ].
Qed.

(** * [EGNSSFixStatus] and [EGNSSTimeScale] *)

(** X8: the fix status is an ordinal, not a bit mask.  Its enumerators
    take the values 0, 1, 2, 3 in declaration order (NO < TIME < 2D < 3D),
    all different.  Only TIME (1) and 2D (2) have a single bit set: NO (0)
    has none and 3D (3) has two, and or-ing TIME and 2D gives the value of
    3D, so a status has to be compared, not mask-tested.  The time scales
    are 0 (UTC) and 1 (GPS). *)
Theorem fix_status_is_ordinal :
  enumerated EGNSSFixStatus /\
  map value (members EGNSSFixStatus) = [0; 1; 2; 3] /\
  pairwise_distinct EGNSSFixStatus /\
  map (fun e => popcount (value e)) (members EGNSSFixStatus)
  = [0; 1; 1; 2]%nat /\
  (forall e : EGNSSFixStatus,
      popcount (value e) = 1%nat <->
      e = GNSS_FIX_STATUS_TIME \/ e = GNSS_FIX_STATUS_2D) /\
  ~ one_bit_each EGNSSFixStatus /\
  ~ independently_combinable EGNSSFixStatus /\
  mask [GNSS_FIX_STATUS_TIME; GNSS_FIX_STATUS_2D] = value GNSS_FIX_STATUS_3D /\
  map value (members EGNSSTimeScale) = [0; 1].
Proof.
  split; [enumerated_cases | ].
  split; [reflexivity | ].
  split.
  { intros a b Hab Hv. apply Hab.
    destruct a; destruct b; first [reflexivity | discriminate Hv]. }
  split; [reflexivity | ].
  split.
  { intros e. destruct e; cbn; split; intros He;
      first [ discriminate He | left; reflexivity | right; reflexivity
            | reflexivity | destruct He as [He | He]; discriminate He ]. }
  split.
  { intros Hone. destruct (Hone GNSS_FIX_STATUS_NO) as [Hc _].
    discriminate Hc. }
  split.
  { intros Hcomb.
    assert (Hin : In GNSS_FIX_STATUS_3D [GNSS_FIX_STATUS_TIME; GNSS_FIX_STATUS_2D]).
    { apply Hcomb. reflexivity. }
    cbn in Hin. intuition discriminate. }
  split; reflexivity.
Qed.

(** * Documented ranges against the field types *)

(** X9: in [TGNSSTime] every documented range lies within the C type of
    its field: a record within the documented ranges passes the type
    checks of month, day, hour, minute, second and ms, whether or not the
    sample is in a leap second. *)
Theorem time_documented_ranges_fit_types
  (leap_second : bool) (t : Time.TGNSSTime) :
  Time.documented leap_second t = true -> Time.ranged_in_type t = true.
Proof.
  unfold Time.documented, Time.ranged_in_type, is_uint8_t, is_uint16_t.
  intros Hdoc.
  destruct leap_second; checks_to_Z Hdoc;
    rewrite ?andb_true_iff, ?Z.leb_le, ?Z.ltb_lt; cbn; lia.
Qed.

Lemma time_documented_ranges_fit_types_witness :
  Time.ranged_in_type Time.leap_sample = true.
Proof.
  apply (time_documented_ranges_fit_types true Time.leap_sample).
  reflexivity.
Defined.

(** X10: in [TGNSSSatelliteDetail] every documented range lies within
    the C type of its field: a record within the documented ranges passes
    the type checks of azimuth, elevation, CNo ([uint16_t]) and posResidual
    ([int16_t], which holds -999), tracked or not. *)
Theorem satellite_documented_ranges_fit_types
  (tracking : bool) (s : SatelliteDetail.TGNSSSatelliteDetail) :
  SatelliteDetail.documented tracking s = true ->
  SatelliteDetail.ranged_in_type s = true.
Proof.
  unfold SatelliteDetail.documented, SatelliteDetail.ranged_in_type,
    is_uint16_t, is_int16_t.
  intros Hdoc.
  destruct tracking; checks_to_Z Hdoc;
    rewrite ?andb_true_iff, ?Z.leb_le, ?Z.ltb_lt; cbn; lia.
Qed.

Lemma satellite_documented_ranges_fit_types_witness :
  SatelliteDetail.ranged_in_type SatelliteDetail.tracked_sample = true.
Proof.
  apply (satellite_documented_ranges_fit_types
           true SatelliteDetail.tracked_sample).
  reflexivity.
Defined.

(** * Satellite IDs *)

(** X11: the documented satellite ID ranges all lie in 1..96 and fit
    [uint16_t].  The GPS, SBAS/WAAS and GLONASS ranges are pairwise
    disjoint, but the GALILEO range is exactly the union of the GPS and
    SBAS/WAAS ranges: every GALILEO ID is also a GPS or SBAS/WAAS ID, so an
    ID identifies a satellite only together with its system. *)
Theorem satellite_id_ranges :
  (forall f id,
      SatelliteDetail.id_in_family f id = true ->
      1 <= id <= 96 /\ is_uint16_t id = true) /\
  (forall f g id,
      f <> SatelliteDetail.GALILEO_ids -> g <> SatelliteDetail.GALILEO_ids ->
      SatelliteDetail.id_in_family f id = true ->
      SatelliteDetail.id_in_family g id = true -> f = g) /\
  (forall id,
      SatelliteDetail.id_in_family SatelliteDetail.GALILEO_ids id = true <->
      SatelliteDetail.id_in_family SatelliteDetail.GPS_ids id = true \/
      SatelliteDetail.id_in_family SatelliteDetail.SBAS_WAAS_ids id = true).
Proof.
  unfold SatelliteDetail.id_in_family, is_uint16_t.
  split; [ | split].
  - intros f id Hin. destruct f; cbn in Hin; checks_to_Z Hin;
      rewrite ?andb_true_iff, ?Z.leb_le, ?Z.ltb_lt; cbn; lia.
  - intros f g id Hf Hg Hin Hin'.
    destruct f; destruct g; try reflexivity; try contradiction;
      cbn in Hin, Hin'; checks_to_Z Hin; checks_to_Z Hin'; lia.
  - intros id. cbn.
    rewrite ?andb_true_iff, ?Z.leb_le. lia.
Qed.

(** * Reading a [TGNSSPosition] through its validity bits *)

Lemma position_valid_fields_spec
  (p : Position.TGNSSPosition) (f : Position.Field) :
  In f (Position.valid_fields p) <->
  exists b, Position.gated b = f /\ has_flag (Position.validityBits p) b = true.
Proof.
  unfold Position.valid_fields, decode. rewrite in_map_iff.
  split; intros (b & Hb & Hflag); exists b.
  - apply filter_In in Hflag. now split.
  - split; [assumption | ]. apply filter_In. split; [ | assumption].
    apply EGNSSPositionValidityBits_enumerated.
Qed.

Lemma position_declared_bits_tested
  (bits : Z) (b : EGNSSPositionValidityBits) :
  has_flag (Z.land bits (mask (members EGNSSPositionValidityBits))) b
  = has_flag bits b.
Proof.
  destruct (tests_compose_intro EGNSSPositionValidityBits
              (proj1 (proj2 EGNSSPositionValidityBits_flags))
              bits (mask (members EGNSSPositionValidityBits)) b) as [_ Hand].
  rewrite Hand.
  replace (has_flag (mask (members EGNSSPositionValidityBits)) b) with true.
  - apply andb_true_r.
  - symmetry. apply EGNSSPositionValidityBits_flags.
    apply EGNSSPositionValidityBits_enumerated.
Qed.

(** X12: whatever [validityBits] holds, the fields a consumer may read
    through the validity bits are never reported twice, and [timestamp] and
    [validityBits] are never among them.  When the declared bits of
    [validityBits] (those below bit 23) are the or of some validity
    enumerators, the readable fields are exactly the fields of those
    enumerators; bits that no enumerator names change nothing. *)
Theorem position_valid_fields_of_mask (p : Position.TGNSSPosition) :
  NoDup (Position.valid_fields p) /\
  (forall f, In f (Position.valid_fields p) -> Position.is_payload f = true) /\
  (forall bs : list EGNSSPositionValidityBits,
      Z.land (Position.validityBits p)
             (mask (members EGNSSPositionValidityBits)) = mask bs ->
      forall f, In f (Position.valid_fields p) <->
                exists b, In b bs /\ Position.gated b = f).
Proof.
  destruct EGNSSPositionValidityBits_flags as (_ & _ & Hcomb).
  split; [ | split].
  - unfold Position.valid_fields, decode.
    apply Injective_map_NoDup; [exact position_gated_injective | ].
    apply NoDup_filter, EGNSSPositionValidityBits_enumerated.
  - intros f Hin. apply position_valid_fields_spec in Hin as (b & <- & _).
    destruct b; reflexivity.
  - intros bs Hbits f. rewrite position_valid_fields_spec.
    split; intros (b & H1 & H2); exists b.
    + split; [ | assumption].
      apply Hcomb. rewrite <- Hbits, position_declared_bits_tested.
      assumption.
    + split; [assumption | ].
      rewrite <- position_declared_bits_tested, Hbits. now apply Hcomb.
Qed.

(** With the latitude and longitude bits set, and bit 23 besides, exactly
    those two fields may be read. *)
Lemma position_valid_fields_of_mask_witness :
  NoDup (Position.valid_fields Position.reserved_bit_set) /\
  (forall f, In f (Position.valid_fields Position.reserved_bit_set) ->
             Position.is_payload f = true) /\
  (forall f, In f (Position.valid_fields Position.reserved_bit_set) <->
             exists b,
               In b [GNSS_POSITION_LATITUDE_VALID;
                     GNSS_POSITION_LONGITUDE_VALID] /\
               Position.gated b = f).
Proof.
  destruct (position_valid_fields_of_mask Position.reserved_bit_set)
    as (Hnd & Hpay & Hmask).
  split; [exact Hnd | split; [exact Hpay | ]].
  apply Hmask. reflexivity.
Defined.

Example horizontal_only_valid_fields :
  Position.valid_fields Position.horizontal_only
  = [Position.f_latitude; Position.f_longitude] /\
  Position.valid_fields Position.reserved_bit_set
  = [Position.f_latitude; Position.f_longitude].
Proof. split; reflexivity. Qed.
